(** * Rubik's Cube model: rotation transform, history and queries

    A shallow embedding of [rubiks_cube/models/cube_model.py] and the
    properties of section 8 of the specification.

    Modelling choices:
    - Python integers are [Z]; a colour is one of the integers 0..5, and
      [None] is the [None] of [option Z].
    - The axis indices 0, 1, 2 (used to index position tuples and the list
      ['x','y','z']) are the enumeration [Axis]; the six string keys
      "x+", "x-", "y+", "y-", "z+", "z-" of a cubie's [colors] dict are the
      enumeration [FaceKey].  The [colors] dict always has exactly these six
      keys, so it is a record of six optional colours.
    - The dict [self.cubies] is a [gmap] from position triples to cubies; a
      [for ... in d.items()] loop is a left fold over [map_to_list d].  The
      order of enumeration is that of the [gmap], not Python's insertion
      order, and no result depends on it: the loops of [rotate_face] write
      to distinct keys (the lemmas [insert_loop_untouched] and
      [insert_loop_written] hold for any order of the items), and the two
      queries write each cell, and the centre colour, once.
    - Exceptions are the [Raise] case of [outcome]; a method returns its
      outcome together with the object state it leaves behind.
    - [print] output is not modelled.

    The second part embeds the callers of the model (the fallback GUI, the
    controller, the renderer's animation state and the animated GUI) and
    proves further properties of the model and of these callers. *)

From stdpp Require Import gmap list strings.
From Stdlib Require Import ZArith Lia QArith Ascii.

Open Scope Z_scope.

(** ** Exceptions *)

Inductive exn := KeyError | TypeError | IndexError | ValueError.

Inductive outcome (A : Type) :=
| Return (a : A)
| Raise (e : exn).
Arguments Return {A} a.
Arguments Raise {A} e.

Definition obind {A B} (m : outcome A) (k : A -> outcome B) : outcome B :=
  match m with
  | Return a => k a
  | Raise e => Raise e
  end.

Notation "'let!' x ':=' m 'in' k" := (obind m (fun x => k))
  (at level 10, x name, m at level 100, k at level 200, only parsing).
Notation "'let!' ' p ':=' m 'in' k" := (obind m (fun p => k))
  (at level 10, p pattern, m at level 100, k at level 200, only parsing).

(** ** Module constants *)

Definition WHITE : Z := 0.
Definition YELLOW : Z := 1.
Definition RED : Z := 2.
Definition ORANGE : Z := 3.
Definition BLUE : Z := 4.
Definition GREEN : Z := 5.

(** Tuple index 0, 1, 2. *)
Inductive Axis := AX | AY | AZ.

#[global] Instance Axis_eq_dec : EqDecision Axis.
Proof. solve_decision. Defined.

(** The keys "x+", "x-", "y+", "y-", "z+", "z-". *)
Inductive FaceKey := Xp | Xm | Yp | Ym | Zp | Zm.

#[global] Instance FaceKey_eq_dec : EqDecision FaceKey.
Proof. solve_decision. Defined.

(** [FACE_AXES], in the order the dict literal lists its items. *)
Definition FACE_AXES_items : list (Z * (Axis * Z)) :=
  [ (0, (AZ, 1)); (1, (AZ, -1)); (2, (AX, 1));
    (3, (AX, -1)); (4, (AY, 1)); (5, (AY, -1)) ].

Fixpoint assoc {A} (k : Z) (l : list (Z * A)) : option A :=
  match l with
  | [] => None
  | (k', v) :: l' => if k =? k' then Some v else assoc k l'
  end.

(** [FACE_AXES[face]]: a missing key raises [KeyError]. *)
Definition FACE_AXES (face : Z) : outcome (Axis * Z) :=
  match assoc face FACE_AXES_items with
  | Some av => Return av
  | None => Raise KeyError
  end.

(** ** Positions *)

Definition Pos : Type := Z * Z * Z.

(** [pos[axis]] *)
Definition pos_get (pos : Pos) (axis : Axis) : Z :=
  let '(px, py, pz) := pos in
  match axis with AX => px | AY => py | AZ => pz end.

(** [new_pos[axis] = v] on the list copy of a position. *)
Definition pos_set (pos : Pos) (axis : Axis) (v : Z) : Pos :=
  let '(px, py, pz) := pos in
  match axis with
  | AX => (v, py, pz)
  | AY => (px, v, pz)
  | AZ => (px, py, v)
  end.

(** [range(3)] as axes. *)
Definition range3 : list Axis := [AX; AY; AZ].

(** [[i for i in range(3) if i != axis]] *)
Definition other_axes (axis : Axis) : list Axis :=
  filter (fun i => i <> axis) range3.

(** ** Cubies *)

Record Colors := MkColors {
  c_xp : option Z; c_xm : option Z;
  c_yp : option Z; c_ym : option Z;
  c_zp : option Z; c_zm : option Z
}.

(** [colors[key]] *)
Definition get_color (cs : Colors) (k : FaceKey) : option Z :=
  match k with
  | Xp => c_xp cs | Xm => c_xm cs
  | Yp => c_yp cs | Ym => c_ym cs
  | Zp => c_zp cs | Zm => c_zm cs
  end.

(** [colors[key] = v] *)
Definition set_color (cs : Colors) (k : FaceKey) (v : option Z) : Colors :=
  match k with
  | Xp => MkColors v (c_xm cs) (c_yp cs) (c_ym cs) (c_zp cs) (c_zm cs)
  | Xm => MkColors (c_xp cs) v (c_yp cs) (c_ym cs) (c_zp cs) (c_zm cs)
  | Yp => MkColors (c_xp cs) (c_xm cs) v (c_ym cs) (c_zp cs) (c_zm cs)
  | Ym => MkColors (c_xp cs) (c_xm cs) (c_yp cs) v (c_zp cs) (c_zm cs)
  | Zp => MkColors (c_xp cs) (c_xm cs) (c_yp cs) (c_ym cs) v (c_zm cs)
  | Zm => MkColors (c_xp cs) (c_xm cs) (c_yp cs) (c_ym cs) (c_zp cs) v
  end.

Record Cubie := MkCubie {
  cubie_x : Z;
  cubie_y : Z;
  cubie_z : Z;
  colors : Colors
}.

#[global] Instance Colors_eq_dec : EqDecision Colors.
Proof. solve_decision. Defined.

#[global] Instance Cubie_eq_dec : EqDecision Cubie.
Proof. solve_decision. Defined.

(** [Cubie.__init__] *)
Definition Cubie_init (x y z : Z) : Cubie :=
  MkCubie x y z
    (MkColors
       (if x =? 1 then Some RED else None)
       (if x =? -1 then Some ORANGE else None)
       (if y =? 1 then Some BLUE else None)
       (if y =? -1 then Some GREEN else None)
       (if z =? 1 then Some WHITE else None)
       (if z =? -1 then Some YELLOW else None)).

Definition with_colors (c : Cubie) (cs : Colors) : Cubie :=
  MkCubie (cubie_x c) (cubie_y c) (cubie_z c) cs.

(** ** The cube *)

Record CubeModel := MkCubeModel {
  cubies : gmap Pos Cubie;
  animating : bool;
  animation_progress : Z;
  history : list (Z * Z)
}.

(** [range(-1, 2)] *)
Definition range_m1_2 : list Z := [-1; 0; 1].

(** The (x, y, z) triples the three nested loops of [CubeModel.__init__]
    visit, in order, the centre skipped. *)
Definition init_positions : list Pos :=
  x ← range_m1_2; y ← range_m1_2; z ← range_m1_2;
  if (x =? 0) && (y =? 0) && (z =? 0) then [] else [(x, y, z)].

(** [CubeModel.__init__] *)
Definition CubeModel_init : CubeModel :=
  MkCubeModel
    (foldl (fun d '(x, y, z) => <[(x, y, z) := Cubie_init x y z]> d)
           ∅ init_positions)
    false 0 [].

(** ** Face keys and axes *)

(** [f"{['x','y','z'][axis]}{'+' if sign > 0 else '-'}"] *)
Definition face_key_of (axis : Axis) (sign : Z) : FaceKey :=
  match axis, (sign >? 0) with
  | AX, true => Xp | AX, false => Xm
  | AY, true => Yp | AY, false => Ym
  | AZ, true => Zp | AZ, false => Zm
  end.

(** The local dict [face_to_axis] of [_rotate_cubie_colors], as its items. *)
Definition face_to_axis_items : list (FaceKey * (Axis * Z)) :=
  [ (Xp, (AX, 1)); (Xm, (AX, -1)); (Yp, (AY, 1));
    (Ym, (AY, -1)); (Zp, (AZ, 1)); (Zm, (AZ, -1)) ].

(** [face_to_axis[key]]: all six keys are present. *)
Definition face_to_axis (k : FaceKey) : Axis * Z :=
  match k with
  | Xp => (AX, 1) | Xm => (AX, -1)
  | Yp => (AY, 1) | Ym => (AY, -1)
  | Zp => (AZ, 1) | Zm => (AZ, -1)
  end.

(** [axis_to_face[(axis, sign)]] for the reversed dict
    [{v: k for k, v in face_to_axis.items()}]. *)
Fixpoint axis_to_face_in (l : list (FaceKey * (Axis * Z))) (axis : Axis) (sign : Z)
  : outcome FaceKey :=
  match l with
  | [] => Raise KeyError
  | (k, (a, s)) :: l' =>
      if bool_decide (a = axis) && (s =? sign) then Return k
      else axis_to_face_in l' axis sign
  end.

Definition axis_to_face := axis_to_face_in face_to_axis_items.

(** ** [CubeModel._rotate_cubie_colors] *)

(** The dict [face_mapping] as the list of its items.  Every key is written
    once, so the items are the writes in program order: first the keys
    aligned with the rotation axis, then the affected keys. *)
Definition aligned_mapping (rotation_axis : Axis) : list (FaceKey * FaceKey) :=
  omap (fun '(face_key, (axis, _)) =>
          if bool_decide (axis = rotation_axis) then Some (face_key, face_key)
          else None)
       face_to_axis_items.

Definition affected_faces (affected_axes : list Axis) : list FaceKey :=
  omap (fun '(face, (axis, _)) =>
          if bool_decide (axis ∈ affected_axes) then Some face else None)
       face_to_axis_items.

Definition affected_entry (a1 a2 : Axis) (direction : Z) (face_key : FaceKey)
  : outcome (FaceKey * FaceKey) :=
  let '(face_axis, face_sign) := face_to_axis face_key in
  let '(new_axis, new_sign) :=
    if bool_decide (face_axis = a1) then
      if direction =? 1 then (a2, face_sign) else (a2, - face_sign)
    else
      if direction =? 1 then (a1, - face_sign) else (a1, face_sign) in
  let! new_face_key := axis_to_face new_axis new_sign in
  Return (face_key, new_face_key).

Definition face_mapping (rotation_axis : Axis) (direction : Z)
  : outcome (list (FaceKey * FaceKey)) :=
  let affected_axes := other_axes rotation_axis in
  match affected_axes with
  | [a1; a2] =>
      foldl (fun acc face_key =>
               let! mapping := acc in
               let! entry := affected_entry a1 a2 direction face_key in
               Return (mapping ++ [entry]))
            (Return (aligned_mapping rotation_axis))
            (affected_faces affected_axes)
  | _ => Raise ValueError
  end.

(** The final loop: copy every colour that is not [None]. *)
Definition apply_face_mapping (mapping : list (FaceKey * FaceKey))
    (old_colors new_colors : Colors) : Colors :=
  foldl (fun cs '(old_face, new_face) =>
           match get_color old_colors old_face with
           | Some c => set_color cs new_face (Some c)
           | None => cs
           end)
        new_colors mapping.

(** Returns [new_cubie] as the call leaves it. *)
Definition _rotate_cubie_colors (old_cubie new_cubie : Cubie)
    (rotation_axis : Axis) (direction : Z) : outcome Cubie :=
  let! mapping := face_mapping rotation_axis direction in
  Return (with_colors new_cubie
            (apply_face_mapping mapping (colors old_cubie) (colors new_cubie))).

(** ** [CubeModel.rotate_face] *)

Definition set_history (self : CubeModel) (h : list (Z * Z)) : CubeModel :=
  MkCubeModel (cubies self) (animating self) (animation_progress self) h.

Definition set_cubies (self : CubeModel) (d : gmap Pos Cubie) : CubeModel :=
  MkCubeModel d (animating self) (animation_progress self) (history self).

(** The first loop: the cubies of the face. *)
Definition face_cubies_of (axis : Axis) (sign : Z) (d : gmap Pos Cubie)
  : gmap Pos Cubie :=
  foldl (fun fc '(pos, cubie) =>
           if pos_get pos axis =? sign then <[pos := cubie]> fc else fc)
        ∅ (map_to_list d).

(** The position a face cubie moves to. *)
Definition rotated_pos (a1 a2 : Axis) (effective_dir : Z) (pos : Pos) : Pos :=
  if effective_dir =? 1 then
    pos_set (pos_set pos a1 (- pos_get pos a2)) a2 (pos_get pos a1)
  else
    pos_set (pos_set pos a1 (pos_get pos a2)) a2 (- pos_get pos a1).

(** One iteration of the second loop. *)
Definition rotate_step (axis : Axis) (sign direction : Z)
    (acc : outcome (gmap Pos Cubie)) (item : Pos * Cubie)
  : outcome (gmap Pos Cubie) :=
  let! new_cubies := acc in
  let '(pos, cubie) := item in
  match other_axes axis with
  | [a1; a2] =>
      let effective_dir := direction * sign in
      let new_pos := rotated_pos a1 a2 effective_dir pos in
      let new_cubie :=
        Cubie_init (pos_get new_pos AX) (pos_get new_pos AY) (pos_get new_pos AZ) in
      let! new_cubie' := _rotate_cubie_colors cubie new_cubie axis effective_dir in
      Return (<[new_pos := new_cubie']> new_cubies)
  | _ => Raise ValueError
  end.

(** The three loops of [rotate_face] on the dict of cubies. *)
Definition rotate_cubies (axis : Axis) (sign direction : Z) (d : gmap Pos Cubie)
  : outcome (gmap Pos Cubie) :=
  let face_cubies := face_cubies_of axis sign d in
  let! new_cubies := foldl (rotate_step axis sign direction) (Return ∅)
                       (map_to_list face_cubies) in
  Return (foldl (fun nc '(pos, cubie) =>
                   if negb (pos_get pos axis =? sign) then <[pos := cubie]> nc
                   else nc)
                new_cubies (map_to_list d)).

Definition rotate_face (face direction : Z) (self : CubeModel)
  : outcome bool * CubeModel :=
  if animating self then (Return false, self)
  else
    let self1 := set_history self (history self ++ [(face, direction)]) in
    match (let! '(axis, sign) := FACE_AXES face in
           rotate_cubies axis sign direction (cubies self1)) with
    | Return new_cubies => (Return true, set_cubies self1 new_cubies)
    | Raise e => (Raise e, self1)
    end.

(** ** [CubeModel.is_solved] *)

Definition option_Z_eqb (a b : option Z) : bool :=
  match a, b with
  | Some u, Some v => u =? v
  | None, None => true
  | _, _ => false
  end.

(** The inner [for i in range(3)] loop computing [is_center]. *)
Definition is_center (axis : Axis) (pos : Pos) : bool :=
  forallb (fun i => negb (negb (bool_decide (i = axis))
                          && negb (pos_get pos i =? 0)))
          range3.

(** The body of the outer loop for one face: [true] when the loop goes on,
    [false] when it returns [False]. *)
Definition face_uniform (axis : Axis) (sign : Z) (d : gmap Pos Cubie) : bool :=
  let face_key := face_key_of axis sign in
  let '(cubies_on_face, center_color) :=
    foldl (fun '(on_face, center_color) '(pos, cubie) =>
             if pos_get pos axis =? sign then
               (on_face ++ [cubie],
                if is_center axis pos then get_color (colors cubie) face_key
                else center_color)
             else (on_face, center_color))
          ([], None) (map_to_list d) in
  forallb (fun cubie =>
             option_Z_eqb (get_color (colors cubie) face_key) center_color)
          cubies_on_face.

Definition is_solved (self : CubeModel) : bool :=
  forallb (fun '(_, (axis, sign)) => face_uniform axis sign (cubies self))
          FACE_AXES_items.

(** ** [CubeModel.get_solution] *)

Definition get_solution (self : CubeModel) : list (Z * Z) :=
  foldl (fun solution '(face, direction) => solution ++ [(face, - direction)])
        [] (reverse (history self)).

(** ** [CubeModel.get_face_colors] *)

(** The function [map_func] that [_get_coordinate_mapping] returns, applied to
    a normalised position. *)
Definition map_func (axis : Axis) (sign : Z) (a1 a2 : Axis) (pos : Pos) : Z * Z :=
  let c1 := pos_get pos a1 in
  let c2 := pos_get pos a2 in
  match axis with
  | AX => if sign >? 0 then (2 - c2, c1) else (2 - c2, 2 - c1)
  | AY => if sign >? 0 then (2 - c2, 2 - c1) else (2 - c2, c1)
  | AZ => if sign >? 0 then (c2, c1) else (2 - c2, c1)
  end.

Definition _get_coordinate_mapping (axis : Axis) (sign : Z)
  : outcome (Pos -> Z * Z) :=
  match other_axes axis with
  | [a1; a2] => Return (map_func axis sign a1 a2)
  | _ => Raise ValueError
  end.

(** [np.zeros((3, 3), dtype=int)] *)
Definition np_zeros_3_3 : list (list Z) := replicate 3 (replicate 3 0).

(** An index into a numpy axis of length 3: negative indices count from the
    end, anything else out of range raises [IndexError]. *)
Definition np_index (i : Z) : outcome nat :=
  if (0 <=? i) && (i <? 3) then Return (Z.to_nat i)
  else if (-3 <=? i) && (i <? 0) then Return (Z.to_nat (i + 3))
  else Raise IndexError.

(** [colors[row, col] = v]; storing [None] into an integer array raises
    [TypeError]. *)
Definition grid_set (grid : list (list Z)) (row col : Z) (v : option Z)
  : outcome (list (list Z)) :=
  let! r := np_index row in
  let! c := np_index col in
  match v with
  | Some color => Return (alter (fun line => <[c := color]> line) r grid)
  | None => Raise TypeError
  end.

Definition get_face_colors (face : Z) (self : CubeModel)
  : outcome (list (list Z)) :=
  let! '(axis, sign) := FACE_AXES face in
  let face_key := face_key_of axis sign in
  let! coord_map := _get_coordinate_mapping axis sign in
  foldl (fun acc '(pos, cubie) =>
           let! grid := acc in
           if pos_get pos axis =? sign then
             let normalized_pos :=
               (pos_get pos AX + 1, pos_get pos AY + 1, pos_get pos AZ + 1) in
             let '(row, col) := coord_map normalized_pos in
             grid_set grid row col (get_color (colors cubie) face_key)
           else Return grid)
        (Return np_zeros_3_3) (map_to_list (cubies self)).

(** ** [CubeModel.randomize] *)

(** The [random] module is not part of the repository.  Its generator is the
    sequence of raw draws it will produce together with the number of draws
    already consumed; seeding the generator fixes the sequence.
    [random.choice(seq)] consumes one draw and reduces it to an index of
    [seq]. *)
Record rng := MkRng {
  draws : nat -> nat;
  consumed : nat
}.

Definition random_choice (seq : list Z) (g : rng) : outcome Z * rng :=
  match seq !! (draws g (consumed g) mod length seq)%nat with
  | Some v => (Return v, MkRng (draws g) (S (consumed g)))
  | None => (Raise IndexError, g)
  end.

(** [list(range(6))] *)
Definition faces : list Z := [0; 1; 2; 3; 4; 5].

Definition directions : list Z := [1; -1].

(** The loop [for _ in range(num_moves)], with the number of iterations left. *)
Fixpoint randomize_loop (n : nat) (g : rng) (self : CubeModel)
  : outcome unit * rng * CubeModel :=
  match n with
  | O => (Return (), g, self)
  | S n' =>
      match random_choice faces g with
      | (Raise e, g1) => (Raise e, g1, self)
      | (Return face, g1) =>
          match random_choice directions g1 with
          | (Raise e, g2) => (Raise e, g2, self)
          | (Return direction, g2) =>
              match rotate_face face direction self with
              | (Raise e, self') => (Raise e, g2, self')
              | (Return _, self') => randomize_loop n' g2 self'
              end
          end
      end
  end.

Definition randomize (num_moves : Z) (g : rng) (self : CubeModel)
  : outcome bool * rng * CubeModel :=
  if animating self then (Return false, g, self)
  else
    match randomize_loop (Z.to_nat num_moves) g self with
    | (Return _, g', self') => (Return true, g', self')
    | (Raise e, g', self') => (Raise e, g', self')
    end.

(** A call of [cube.randomize] with positional arguments [args] and keyword
    arguments [kwargs], bound against the signature
    [def randomize(self, num_moves=20)]: one optional parameter, given by
    position or by name; any other keyword, a second positional argument or
    a parameter given twice raises [TypeError] before the body runs. *)
Definition call_randomize (args : list Z) (kwargs : list (string * Z))
    (g : rng) (self : CubeModel) : outcome bool * rng * CubeModel :=
  match args, kwargs with
  | [], [] => randomize 20 g self
  | [num_moves], [] => randomize num_moves g self
  | [], [(name, num_moves)] =>
      if String.eqb name "num_moves" then randomize num_moves g self
      else (Raise TypeError, g, self)
  | _, _ => (Raise TypeError, g, self)
  end.

(** ** Sequences of moves *)

(** Consecutive [rotate_face] calls, the cube passed from one to the next. *)
Definition apply_moves (moves : list (Z * Z)) (self : CubeModel) : CubeModel :=
  foldl (fun s '(face, direction) => snd (rotate_face face direction s))
        self moves.

Definition valid_move (m : Z * Z) : Prop :=
  (0 <= m.1 <= 5) /\ (m.2 = 1 \/ m.2 = -1).

(** ** The colours on the cube *)

(** The entries of a [colors] dict that are not [None]. *)
Definition facelets_of (cs : Colors) : list Z :=
  omap id [c_xp cs; c_xm cs; c_yp cs; c_ym cs; c_zp cs; c_zm cs].

(** All visible facelets of the cube. *)
Definition facelets (d : gmap Pos Cubie) : list Z :=
  '(_, cubie) ← map_to_list d; facelets_of (colors cubie).

(** ** The data-model invariant *)

(** The label [k] faces outwards at position [pos]. *)
Definition outward (pos : Pos) (k : FaceKey) : bool :=
  let '(axis, sign) := face_to_axis k in pos_get pos axis =? sign.

Definition all_keys : list FaceKey := [Xp; Xm; Yp; Ym; Zp; Zm].

(** A cubie stored under [pos] records [pos] as its own position and has a
    colour on every outward label. *)
Definition cubie_ok (pos : Pos) (c : Cubie) : bool :=
  bool_decide ((cubie_x c, cubie_y c, cubie_z c) = pos)
  && forallb (fun k => implb (outward pos k)
                             (bool_decide (is_Some (get_color (colors c) k))))
             all_keys.

Definition cube_ok (d : gmap Pos Cubie) : bool :=
  forallb (fun '(pos, c) => cubie_ok pos c) (map_to_list d).

(** * The callers of the model

    [views/fallback_renderer.py], [controllers/app_controller.py],
    [views/cube_renderer.py] and [views/gui.py], as far as they act on the
    cube.  Widgets, OpenGL drawing, logging and the clock are outside the
    model. *)

(** ** [COLOR_MAP] and the fallback renderer *)

(** The RGB components of [COLOR_MAP] are the floats 0.0, 0.5 and 1.0; these
    and their products with 255 are exact, so they are the rationals. *)
Definition COLOR_MAP_items : list (Z * (Q * Q * Q)) :=
  [ (WHITE, (1, 1, 1)%Q); (YELLOW, (1, 1, 0)%Q); (RED, (1, 0, 0)%Q);
    (ORANGE, (1, Qmake 1 2, 0)%Q); (BLUE, (0, 0, 1)%Q); (GREEN, (0, 1, 0)%Q) ].

(** [COLOR_MAP[color_idx]] *)
Definition COLOR_MAP (color_idx : Z) : outcome (Q * Q * Q) :=
  match assoc color_idx COLOR_MAP_items with
  | Some rgb => Return rgb
  | None => Raise KeyError
  end.

(** [int(q)]: truncation towards zero. *)
Definition int_of (q : Q) : Z := Z.quot (Qnum q) (Z.pos (Qden q)).

Definition hex_digit (d : Z) : ascii :=
  nth (Z.to_nat d) (String.list_ascii_of_string "0123456789abcdef") "0"%char.

(** The hexadecimal digits of [n >= 0], most significant first. *)
Fixpoint hex_digits (fuel : nat) (n : Z) (acc : string) : string :=
  match fuel with
  | O => acc
  | S fuel' =>
      let acc' := String (hex_digit (n mod 16)) acc in
      if n / 16 =? 0 then acc' else hex_digits fuel' (n / 16) acc'
  end.

(** [f"{n:02x}"] *)
Definition format_02x (n : Z) : string :=
  let digits := hex_digits (S (Z.to_nat (Z.log2 (Z.abs n)))) (Z.abs n) "" in
  if n <? 0 then ("-" ++ digits)%string
  else if (String.length digits <? 2)%nat then ("0" ++ digits)%string
  else digits.

(** [f"#{int(r*255):02x}{int(g*255):02x}{int(b*255):02x}"] *)
Definition fill_color (rgb : Q * Q * Q) : string :=
  let '(r, g, b) := rgb in
  ("#" ++ format_02x (int_of (r * 255)) ++ format_02x (int_of (g * 255))
       ++ format_02x (int_of (b * 255)))%string.

Module FallbackGUI.

(** The cube and the fill colours of the rectangles on the canvas, in
    drawing order.  Window geometry, labels and widgets are not modelled. *)
Record t := Mk {
  cube_model : CubeModel;
  canvas : list string
}.

(** [_draw_face]: nine rectangles, row by row. *)
Definition _draw_face (face_colors : list (list Z)) (drawn : outcome unit * list string)
  : outcome unit * list string :=
  foldl (fun acc '(row, col) =>
           match acc with
           | (Raise e, canvas) => (Raise e, canvas)
           | (Return _, canvas) =>
               match face_colors !! row ≫= (fun line => line !! col) with
               | None => (Raise IndexError, canvas)
               | Some color_idx =>
                   match COLOR_MAP color_idx with
                   | Raise e => (Raise e, canvas)
                   | Return rgb => (Return (), canvas ++ [fill_color rgb])
                   end
               end
           end)
        drawn
        (row ← seq 0 3; col ← seq 0 3; [(row, col)]).

(** [face_colors[face] = self.cube_model.get_face_colors(face)] for the six
    faces. *)
Definition face_grids (m : CubeModel) : outcome (list (list (list Z))) :=
  foldl (fun acc face =>
           let! grids := acc in
           let! grid := get_face_colors face m in
           Return (grids ++ [grid]))
        (Return []) faces.

Definition render_cube (self : t) : outcome unit * t :=
  match face_grids (cube_model self) with
  | Raise e => (Raise e, Mk (cube_model self) [])
  | Return grids =>
      let '(r, canvas) :=
        foldl (fun drawn grid => _draw_face grid drawn) (Return (), []) grids in
      (r, Mk (cube_model self) canvas)
  end.

Definition reset_cube (self : t) : outcome unit * t :=
  render_cube (Mk CubeModel_init (canvas self)).

Definition randomize_cube (g : rng) (self : t) : outcome unit * rng * t :=
  match randomize 20 g (cube_model self) with
  | (Raise e, g', m) => (Raise e, g', Mk m (canvas self))
  | (Return _, g', m) =>
      let '(r, self') := render_cube (Mk m (canvas self)) in (r, g', self')
  end.

(** The loop of [solve_cube], the return values ignored. *)
Definition play (solution : list (Z * Z)) (m : CubeModel) : outcome unit * CubeModel :=
  foldl (fun acc '(face, direction) =>
           match acc with
           | (Raise e, m) => (Raise e, m)
           | (Return _, m) =>
               match rotate_face face direction m with
               | (Raise e, m') => (Raise e, m')
               | (Return _, m') => (Return (), m')
               end
           end)
        (Return (), m) solution.

Definition solve_cube (self : t) : outcome unit * t :=
  let solution := get_solution (cube_model self) in
  match play solution (cube_model self) with
  | (Raise e, m) => (Raise e, Mk m (canvas self))
  | (Return _, m) => render_cube (Mk m (canvas self))
  end.

Definition rotate_face (face direction : Z) (self : t) : outcome unit * t :=
  if negb (animating (cube_model self)) then
    match rotate_face face direction (cube_model self) with
    | (Raise e, m) => (Raise e, Mk m (canvas self))
    | (Return _, m) => render_cube (Mk m (canvas self))
    end
  else (Return (), self).

End FallbackGUI.

Module AppController.

(** The controller's own state.  [self.view] is only handed the model
    reference (no modelled method reads it), logging is not modelled. *)
Record t := Mk {
  use_fallback : bool;
  cube_model : CubeModel
}.

Definition init (use_fallback : bool) : t := Mk use_fallback CubeModel_init.

Definition is_animating (self : t) : bool := animating (cube_model self).

Definition rotate_face (face_idx direction : Z) (self : t) : outcome unit * t :=
  if is_animating self then (Return (), self)
  else
    match FACE_AXES face_idx with
    | Raise e => (Raise e, self)
    | Return (axis, sign) =>
        match rotate_face face_idx direction (cube_model self) with
        | (Raise e, m) => (Raise e, Mk (use_fallback self) m)
        | (Return _, m) => (Return (), Mk (use_fallback self) m)
        end
    end.

Definition reset_cube (self : t) : outcome unit * t :=
  (Return (), Mk (use_fallback self) CubeModel_init).

(** [original_model] is the very object [randomize] mutates, so the
    assignment in the [except] branch stores the cube as [randomize] left
    it. *)
Definition randomize_cube (num_moves : Z) (g : rng) (self : t)
  : outcome unit * rng * t :=
  match randomize num_moves g (cube_model self) with
  | (Return _, g', m) => (Return (), g', Mk (use_fallback self) m)
  | (Raise _, g', m) => (Return (), g', Mk (use_fallback self) m)
  end.

Definition solve_cube (self : t) : outcome unit * t := reset_cube self.

End AppController.

(** [cube_model.animating = b] *)
Definition set_animating (self : CubeModel) (b : bool) : CubeModel :=
  MkCubeModel (cubies self) b (animation_progress self) (history self).

Module CubeRenderer.

(** The cube the renderer shares with the GUI and the pending animation.
    The clock is outside the model: [animation_start_time] is not kept, and
    [update_animation] takes the outcome of its test [progress >= 1.0] as
    the argument [finished]. *)
Record t := Mk {
  cube_model : CubeModel;
  current_animation : option (Z * Z)
}.

Definition init (cube_model : CubeModel) : t := Mk cube_model None.

Definition start_animation (face direction : Z) (self : t) : bool * t :=
  if negb (animating (cube_model self)) then
    (true, Mk (set_animating (cube_model self) true) (Some (face, direction)))
  else (false, self).

Definition update_animation (finished : bool) (self : t) : outcome bool * t :=
  match current_animation self with
  | Some (face, direction) =>
      if negb (animating (cube_model self)) then (Return false, self)
      else if finished then
        match rotate_face face direction (set_animating (cube_model self) false) with
        | (Raise e, m) => (Raise e, Mk m None)
        | (Return _, m) => (Return true, Mk m None)
        end
      else (Return false, self)
  | None => (Return false, self)
  end.

End CubeRenderer.

Module RubiksCubeGUI.

(** [self.cube_model] and [self.gl_frame.renderer.cube_model] are one
    object, at creation and after [_reset_cube]; the state of the GUI is the
    state of its renderer. *)
Definition t := CubeRenderer.t.

Definition init : t := CubeRenderer.init CubeModel_init.

Definition _rotate_face (face direction : Z) (self : t) : bool * t :=
  if negb (animating (CubeRenderer.cube_model self)) then
    match CubeRenderer.start_animation face direction self with
    | (true, self') => (true, self')
    | (false, self') => (false, self')
    end
  else (false, self).

Definition _reset_cube (self : t) : t :=
  if negb (animating (CubeRenderer.cube_model self)) then
    CubeRenderer.Mk CubeModel_init (CubeRenderer.current_animation self)
  else self.

Definition _randomize_cube (g : rng) (self : t) : outcome unit * rng * t :=
  if negb (animating (CubeRenderer.cube_model self)) then
    match randomize 20 g (CubeRenderer.cube_model self) with
    | (Return _, g', m) =>
        (Return (), g', CubeRenderer.Mk m (CubeRenderer.current_animation self))
    | (Raise e, g', m) =>
        (Raise e, g', CubeRenderer.Mk m (CubeRenderer.current_animation self))
    end
  else (Return (), g, self).

(** One pass of [_animation_loop]: the exception of [update_animation] is
    caught and printed; drawing is not modelled. *)
Definition _animation_loop (finished : bool) (self : t) : t :=
  snd (CubeRenderer.update_animation finished self).

End RubiksCubeGUI.

(** A button press, a reset, a randomize with the generator as it is then,
    or a pass of the animation loop with the outcome of its clock test.  A
    step of [_animate_solution] acts on the state as a press does: it calls
    [start_animation] only when the cube is not animating. *)
Inductive gui_event :=
| Press (face direction : Z)
| Reset
| Randomize (g : rng)
| Tick (finished : bool).

(** The callback the event runs; Tk reports an exception of a callback and
    goes on with the state the callback left. *)
Definition handle (self : RubiksCubeGUI.t) (e : gui_event) : RubiksCubeGUI.t :=
  match e with
  | Press face direction => (RubiksCubeGUI._rotate_face face direction self).2
  | Reset => RubiksCubeGUI._reset_cube self
  | Randomize g => (RubiksCubeGUI._randomize_cube g self).2
  | Tick finished => RubiksCubeGUI._animation_loop finished self
  end.

(** ** A session of the fallback GUI *)

(** What the user can do in the fallback GUI: one of the twelve face
    buttons, reset, randomize (with the generator as it is then), solve, or
    a resize of the window. *)
Inductive fallback_event :=
| FaceButton (face direction : Z)
| ResetButton
| RandomizeButton (g : rng)
| SolveButton
| Resize.

(** The twelve face buttons pass a face 0..5 and a direction +1 or -1. *)
Definition button_ok (e : fallback_event) : Prop :=
  match e with
  | FaceButton face direction => valid_move (face, direction)
  | _ => True
  end.

(** The callback of an event. *)
Definition fallback_handle (e : fallback_event) (self : FallbackGUI.t)
  : outcome unit * FallbackGUI.t :=
  match e with
  | FaceButton face direction => FallbackGUI.rotate_face face direction self
  | ResetButton => FallbackGUI.reset_cube self
  | RandomizeButton g =>
      ((FallbackGUI.randomize_cube g self).1.1, (FallbackGUI.randomize_cube g self).2)
  | SolveButton => FallbackGUI.solve_cube self
  | Resize => FallbackGUI.render_cube self
  end.

(** The GUI as [FallbackGUI.__init__] leaves it: a fresh cube, drawn. *)
Definition fallback_init : FallbackGUI.t :=
  (FallbackGUI.render_cube (FallbackGUI.Mk CubeModel_init [])).2.

(** The callbacks of a session in order, up to the first that raises. *)
Definition fallback_run (events : list fallback_event) (self : FallbackGUI.t)
  : outcome unit * FallbackGUI.t :=
  foldl (fun acc e =>
           match acc with
           | (Raise err, s) => (Raise err, s)
           | (Return _, s) => fallback_handle e s
           end)
        (Return (), self) events.

(** * Definitions used by the proofs *)

(** The two axes other than [axis], in the order of [other_axes]. *)
Definition axes_of (axis : Axis) : Axis * Axis :=
  match axis with
  | AX => (AY, AZ)
  | AY => (AX, AZ)
  | AZ => (AX, AY)
  end.

(** The items of [face_mapping] for a clockwise ([cw = true]) or any other
    effective direction. *)
Definition mapping_of (axis : Axis) (cw : bool) : list (FaceKey * FaceKey) :=
  match face_mapping axis (if cw then 1 else -1) with
  | Return m => m
  | Raise _ => []
  end.

(** [rotated_pos] with the two other axes of [axis]. *)
Definition turn_pos (axis : Axis) (effective_dir : Z) (pos : Pos) : Pos :=
  rotated_pos (axes_of axis).1 (axes_of axis).2 effective_dir pos.

(** The cubie the loop body stores under [turn_pos axis effective_dir pos]. *)
Definition turned_cubie (axis : Axis) (effective_dir : Z) (pos : Pos)
    (cubie : Cubie) : Cubie :=
  let new_pos := turn_pos axis effective_dir pos in
  let new_cubie :=
    Cubie_init (pos_get new_pos AX) (pos_get new_pos AY) (pos_get new_pos AZ) in
  with_colors new_cubie
    (apply_face_mapping (mapping_of axis (effective_dir =? 1))
                        (colors cubie) (colors new_cubie)).

(** The dict [rotate_face] stores in [self.cubies]. *)
Definition turned (axis : Axis) (sign direction : Z) (d : gmap Pos Cubie)
  : gmap Pos Cubie :=
  foldl (fun nc '(pos, cubie) =>
           if negb (pos_get pos axis =? sign) then <[pos := cubie]> nc else nc)
        (foldl (fun nc '(pos, cubie) =>
                  <[turn_pos axis (direction * sign) pos
                    := turned_cubie axis (direction * sign) pos cubie]> nc)
               ∅ (map_to_list (face_cubies_of axis sign d)))
        (map_to_list d).

(** Where [face_mapping] sends a label: [face_mapping[k]]. *)
Definition image (axis : Axis) (cw : bool) (k : FaceKey) : FaceKey :=
  match list_find (fun e => e.1 = k) (mapping_of axis cw) with
  | Some (_, (_, k')) => k'
  | None => k
  end.

(** An effective direction that takes the other branch. *)
Definition back (ed : Z) : Z := if ed =? 1 then -1 else 1.

(** Where a position goes when a face turns. *)
Definition moved_pos (axis : Axis) (sign direction : Z) (pos : Pos) : Pos :=
  if pos_get pos axis =? sign then turn_pos axis (direction * sign) pos else pos.

(** An item of the old dict as it appears in the new one. *)
Definition moved (axis : Axis) (sign direction : Z) (item : Pos * Cubie)
  : Pos * Cubie :=
  if pos_get item.1 axis =? sign then
    (turn_pos axis (direction * sign) item.1,
     turned_cubie axis (direction * sign) item.1 item.2)
  else item.

(** The same face, the direction negated. *)
Definition negate_move (m : Z * Z) : Z * Z := (m.1, - m.2).

(** Row 0 of a returned grid. *)
Definition top_row (grid : outcome (list (list Z))) : option (list Z) :=
  match grid with
  | Return rows => rows !! 0%nat
  | Raise _ => None
  end.

(** The else-branch of the position update (lines 181-182):
    [new_pos[a1] = pos[a2]] and [new_pos[a2] = -pos[a1]], written out for
    each rotation axis. *)
Definition ccw_pos (axis : Axis) (pos : Pos) : Pos :=
  let '(x, y, z) := pos in
  match axis with
  | AX => (x, z, - y)
  | AY => (z, y, - x)
  | AZ => (y, - x, z)
  end.

(** The else-branches of the colour update (lines 251-253 and 258-260),
    written out for each rotation axis: the new cubie is [Cubie] at the new
    position, and each label of the old cubie that has a colour hands it to
    the label it turns into. *)
Definition ccw_cubie (axis : Axis) (pos : Pos) (cubie : Cubie) : Cubie :=
  let '(x, y, z) := ccw_pos axis pos in
  let new_cubie := Cubie_init x y z in
  let carried (old_face new_face : FaceKey) :=
    match get_color (colors cubie) old_face with
    | Some color => Some color
    | None => get_color (colors new_cubie) new_face
    end in
  MkCubie x y z
    (match axis with
     | AX => MkColors (carried Xp Xp) (carried Xm Xm) (carried Zp Yp)
                      (carried Zm Ym) (carried Ym Zp) (carried Yp Zm)
     | AY => MkColors (carried Zp Xp) (carried Zm Xm) (carried Yp Yp)
                      (carried Ym Ym) (carried Xm Zp) (carried Xp Zm)
     | AZ => MkColors (carried Yp Xp) (carried Ym Xm) (carried Xm Yp)
                      (carried Xp Ym) (carried Zp Zp) (carried Zm Zm)
     end).

(** ** Definitions for the further properties *)

(** How many coordinates of a position are not zero. *)
Definition nonzero_coordinates (p : Pos) : nat :=
  length (filter (fun v => v <> 0) [pos_get p AX; pos_get p AY; pos_get p AZ]).

(** [center_pos] of [is_solved]: the origin with [center_pos[axis] = sign]. *)
Definition center_pos (axis : Axis) (sign : Z) : Pos := pos_set (0, 0, 0) axis sign.

(** The cubie of the fresh cube at [p]. *)
Definition fresh_cubie (p : Pos) : Cubie :=
  Cubie_init (pos_get p AX) (pos_get p AY) (pos_get p AZ).

(** A key of the fresh cube: coordinates in -1..1, not all zero. *)
Definition lattice (p : Pos) : bool :=
  let '(x, y, z) := p in
  (-1 <=? x) && (x <=? 1) && (-1 <=? y) && (y <=? 1) && (-1 <=? z) && (z <=? 1)
  && negb ((x =? 0) && (y =? 0) && (z =? 0)).

(** The colour [Cubie.__init__] gives a label. *)
Definition key_color (k : FaceKey) : Z :=
  match k with
  | Xp => RED | Xm => ORANGE
  | Yp => BLUE | Ym => GREEN
  | Zp => WHITE | Zm => YELLOW
  end.

(** Colours exactly on the outward labels, and the cubie's own coordinates. *)
Definition cubie_exact (p : Pos) (c : Cubie) : Prop :=
  (cubie_x c, cubie_y c, cubie_z c) = p /\
  forall k, is_Some (get_color (colors c) k) <-> outward p k = true.

(** What every state of the cube satisfies. *)
Definition cube_inv (d : gmap Pos Cubie) : Prop :=
  (forall p, is_Some (d !! p) <-> lattice p = true) /\
  (forall p c, d !! p = Some c -> cubie_exact p c) /\
  (forall face axis sign,
     FACE_AXES face = Return (axis, sign) ->
     d !! center_pos axis sign = Some (fresh_cubie (center_pos axis sign))) /\
  (forall p c k v, d !! p = Some c -> get_color (colors c) k = Some v ->
                   0 <= v <= 5).

(** The centre colour [is_solved] compares a face against. *)
Definition center_color (axis : Axis) (sign : Z) (d : gmap Pos Cubie) : option Z :=
  match d !! center_pos axis sign with
  | Some c => get_color (colors c) (face_key_of axis sign)
  | None => None
  end.

(** The cell [grid[r][c]]. *)
Definition cell (grid : list (list Z)) (r c : nat) : option Z :=
  grid !! r ≫= fun line => line !! c.

(** Three rows of three cells. *)
Definition grid_3x3 (grid : list (list Z)) : Prop :=
  length grid = 3%nat /\ forall line, line ∈ grid -> length line = 3%nat.

(** [[p + 1 for p in pos]] *)
Definition normalized (pos : Pos) : Pos :=
  (pos_get pos AX + 1, pos_get pos AY + 1, pos_get pos AZ + 1).

(** The cell of the grid a face position is drawn in. *)
Definition cell_of (axis : Axis) (sign : Z) (pos : Pos) : Z * Z :=
  map_func axis sign (axes_of axis).1 (axes_of axis).2 (normalized pos).

(** The face position drawn in the cell [(r, c)]. *)
Definition pos_of_cell (axis : Axis) (sign : Z) (r c : Z) : Pos :=
  match axis with
  | AX => if sign >? 0 then (sign, c - 1, 1 - r) else (sign, 1 - c, 1 - r)
  | AY => if sign >? 0 then (1 - c, sign, 1 - r) else (c - 1, sign, 1 - r)
  | AZ => if sign >? 0 then (c - 1, r - 1, sign) else (c - 1, 1 - r, sign)
  end.

(** All nine cells hold the same colour. *)
Definition grid_uniform (grid : list (list Z)) : Prop :=
  exists v, forall r c, (r < 3)%nat -> (c < 3)%nat -> cell grid r c = Some v.

(** The face and direction one iteration of the loop of [randomize] draws. *)
Definition drawn_move (g : rng) : Z * Z :=
  (Z.of_nat (draws g (consumed g) mod 6),
   if (draws g (S (consumed g)) mod 2 =? 0)%nat then 1 else -1).

(** The generator after [k] more draws. *)
Definition skip (k : nat) (g : rng) : rng := MkRng (draws g) (consumed g + k).

(** The moves [n] iterations draw. *)
Fixpoint drawn_moves (n : nat) (g : rng) : list (Z * Z) :=
  match n with
  | O => []
  | S n' => drawn_move g :: drawn_moves n' (skip 2 g)
  end.

(** The canvas of a freshly drawn solved cube. *)
Definition solved_canvas : list string :=
  FallbackGUI.canvas (FallbackGUI.render_cube (FallbackGUI.Mk CubeModel_init [])).2.

(** A drawn GUI whose cube came from the fresh one by valid moves. *)
Definition fallback_ok (self : FallbackGUI.t) : Prop :=
  length (FallbackGUI.canvas self) = 54%nat /\
  exists moves,
    Forall valid_move moves /\
    FallbackGUI.cube_model self = apply_moves moves CubeModel_init.

(** The body of the outer loop of [is_solved] for one face, with the
    enumeration [self.cubies.items()] as the argument [items];
    [face_uniform axis sign d] is
    [face_uniform_items axis sign (map_to_list d)]. *)
Definition face_uniform_items (axis : Axis) (sign : Z)
    (items : list (Pos * Cubie)) : bool :=
  let face_key := face_key_of axis sign in
  let '(cubies_on_face, center_color) :=
    foldl (fun '(on_face, center_color) '(pos, cubie) =>
             if pos_get pos axis =? sign then
               (on_face ++ [cubie],
                if is_center axis pos then get_color (colors cubie) face_key
                else center_color)
             else (on_face, center_color))
          ([], None) items in
  forallb (fun cubie =>
             option_Z_eqb (get_color (colors cubie) face_key) center_color)
          cubies_on_face.

(** [is_solved] over the enumeration [items] of the dict. *)
Definition is_solved_items (items : list (Pos * Cubie)) : bool :=
  forallb (fun '(_, (axis, sign)) => face_uniform_items axis sign items)
          FACE_AXES_items.

(** * Proofs *)

(** ** Loops that write into a dict *)

Section insert_loop.
Context {B : Type}.
Variables (cond : B -> bool) (kf : B -> Pos) (vf : B -> Cubie).
Variable step : gmap Pos Cubie -> B -> gmap Pos Cubie.
Hypothesis step_spec :
  forall acc b, step acc b = if cond b then <[kf b := vf b]> acc else acc.

Lemma insert_loop_untouched (l : list B) (acc : gmap Pos Cubie) (q : Pos) :
  (forall b, b ∈ l -> cond b = true -> kf b <> q) ->
  foldl step acc l !! q = acc !! q.
Proof.
  induction l as [|x l IH] using rev_ind; intros Hne; [done|].
  rewrite foldl_snoc, step_spec.
  assert (foldl step acc l !! q = acc !! q) as Hl.
  { apply IH. intros b Hb. apply Hne, elem_of_app. by left. }
  destruct (cond x) eqn:Hc; [|done].
  rewrite lookup_insert_ne; [done|].
  apply Hne; [|done]. apply elem_of_app. right. by apply list_elem_of_singleton.
Qed.

Lemma insert_loop_written (l : list B) (acc : gmap Pos Cubie) (b : B) :
  b ∈ l -> cond b = true ->
  (forall b', b' ∈ l -> cond b' = true -> kf b' = kf b -> vf b' = vf b) ->
  foldl step acc l !! kf b = Some (vf b).
Proof.
  induction l as [|x l IH] using rev_ind; intros Hin Hc Huniq.
  { by apply elem_of_nil in Hin. }
  rewrite foldl_snoc, step_spec.
  assert (x ∈ l ++ [x]) as Hx.
  { apply elem_of_app. right. by apply list_elem_of_singleton. }
  destruct (cond x) eqn:Hcx.
  - destruct (decide (kf x = kf b)) as [Heq|Hneq].
    + rewrite Heq, lookup_insert_eq. f_equal. by apply Huniq.
    + rewrite lookup_insert_ne by done.
      apply elem_of_app in Hin as [Hin|Hin%list_elem_of_singleton].
      * apply IH; [done..|]. intros b' Hb'. apply Huniq, elem_of_app. by left.
      * by subst.
  - apply elem_of_app in Hin as [Hin|Hin%list_elem_of_singleton].
    + apply IH; [done..|]. intros b' Hb'. apply Huniq, elem_of_app. by left.
    + subst. congruence.
Qed.
End insert_loop.

(** ** The face mapping *)

Lemma face_to_axis_item (k : FaceKey) :
  (k, face_to_axis k) ∈ face_to_axis_items.
Proof. apply list_elem_of_In. destruct k; simpl; tauto. Qed.

Lemma other_axes_pair axis :
  other_axes axis = [(axes_of axis).1; (axes_of axis).2].
Proof. by destruct axis. Qed.

Lemma affected_entry_dir a1 a2 direction k :
  affected_entry a1 a2 direction k
  = affected_entry a1 a2 (if direction =? 1 then 1 else -1) k.
Proof.
  unfold affected_entry. by destruct (direction =? 1).
Qed.

Lemma face_mapping_dir axis direction :
  face_mapping axis direction
  = face_mapping axis (if direction =? 1 then 1 else -1).
Proof.
  unfold face_mapping. rewrite other_axes_pair.
  generalize (Return (aligned_mapping axis)).
  induction (affected_faces _) as [|k l IH]; intros acc; [done|].
  simpl. rewrite (affected_entry_dir _ _ direction). apply IH.
Qed.

Lemma face_mapping_returns axis direction :
  face_mapping axis direction = Return (mapping_of axis (direction =? 1)).
Proof.
  rewrite face_mapping_dir. unfold mapping_of.
  by destruct axis, (direction =? 1).
Qed.

(** ** One cubie of the turning face *)

Lemma _rotate_cubie_colors_returns old_cubie new_cubie axis direction :
  _rotate_cubie_colors old_cubie new_cubie axis direction
  = Return (with_colors new_cubie
              (apply_face_mapping (mapping_of axis (direction =? 1))
                                  (colors old_cubie) (colors new_cubie))).
Proof.
  unfold _rotate_cubie_colors. by rewrite face_mapping_returns.
Qed.

Lemma rotate_step_returns axis sign direction nc pos cubie :
  rotate_step axis sign direction (Return nc) (pos, cubie)
  = Return (<[turn_pos axis (direction * sign) pos
              := turned_cubie axis (direction * sign) pos cubie]> nc).
Proof.
  unfold rotate_step. simpl. rewrite other_axes_pair.
  by rewrite _rotate_cubie_colors_returns.
Qed.

Lemma rotate_cubies_returns axis sign direction d :
  rotate_cubies axis sign direction d = Return (turned axis sign direction d).
Proof.
  unfold rotate_cubies, turned.
  generalize (map_to_list (face_cubies_of axis sign d)) as l.
  intros l.
  assert (forall acc,
    foldl (rotate_step axis sign direction) (Return acc) l
    = Return (foldl (fun nc '(pos, cubie) =>
                <[turn_pos axis (direction * sign) pos
                  := turned_cubie axis (direction * sign) pos cubie]> nc) acc l))
    as ->; [|done].
  induction l as [|[pos cubie] l IH]; intros acc; [done|].
  cbn [foldl]. by rewrite rotate_step_returns, IH.
Qed.

(** ** Lookups in the turned dict *)

Lemma face_cubies_of_lookup (axis : Axis) (sign : Z) (d : gmap Pos Cubie) (p : Pos) :
  face_cubies_of axis sign d !! p
  = if pos_get p axis =? sign then d !! p else None.
Proof.
  unfold face_cubies_of.
  set (step := fun (fc : gmap Pos Cubie) '(pos, cubie) =>
                 if pos_get pos axis =? sign then <[pos := cubie]> fc else fc).
  assert (forall acc b, step acc b
            = if pos_get b.1 axis =? sign then <[b.1 := b.2]> acc else acc)
    as Hstep by (by intros acc [pos c]).
  destruct (d !! p) as [c|] eqn:Hp; destruct (pos_get p axis =? sign) eqn:Hs.
  - apply (insert_loop_written _ fst snd step Hstep _ _ (p, c)); simpl; [|done|].
    + by apply elem_of_map_to_list.
    + intros [p' c'] Hin _ Heq. simpl in *. subst p'.
      apply elem_of_map_to_list in Hin. congruence.
  - rewrite (insert_loop_untouched _ fst snd step Hstep); [done|].
    intros [p' c'] _ Hc Heq. simpl in *. congruence.
  - rewrite (insert_loop_untouched _ fst snd step Hstep); [done|].
    intros [p' c'] Hin _ Heq. simpl in *. subst p'.
    apply elem_of_map_to_list in Hin. congruence.
  - rewrite (insert_loop_untouched _ fst snd step Hstep); [done|].
    intros [p' c'] _ Hc Heq. simpl in *. congruence.
Qed.

Lemma turn_pos_axis (axis : Axis) (ed : Z) (p : Pos) :
  pos_get (turn_pos axis ed p) axis = pos_get p axis.
Proof.
  destruct p as [[px py] pz].
  unfold turn_pos, rotated_pos. by destruct axis, (ed =? 1).
Qed.

Lemma turn_pos_inj (axis : Axis) (ed : Z) (p p' : Pos) :
  turn_pos axis ed p = turn_pos axis ed p' -> p = p'.
Proof.
  destruct p as [[px py] pz], p' as [[px' py'] pz'].
  unfold turn_pos, rotated_pos.
  destruct axis, (ed =? 1); simpl; intros [= ? ? ?];
    repeat match goal with |- (_, _) = (_, _) => f_equal end; lia.
Qed.

Lemma turned_lookup_face (axis : Axis) (sign direction : Z)
    (d : gmap Pos Cubie) (p : Pos) :
  pos_get p axis = sign ->
  turned axis sign direction d !! turn_pos axis (direction * sign) p
  = turned_cubie axis (direction * sign) p <$> d !! p.
Proof.
  intros Hp. unfold turned.
  set (ed := direction * sign).
  set (step3 := fun (nc : gmap Pos Cubie) '(pos, cubie) =>
                  if negb (pos_get pos axis =? sign) then <[pos := cubie]> nc
                  else nc).
  set (step2 := fun (nc : gmap Pos Cubie) '(pos, cubie) =>
                  <[turn_pos axis ed pos := turned_cubie axis ed pos cubie]> nc).
  assert (forall acc b, step3 acc b
            = if negb (pos_get b.1 axis =? sign) then <[b.1 := b.2]> acc else acc)
    as Hstep3 by (by intros acc [pos c]).
  assert (forall acc b, step2 acc b
            = if true then <[turn_pos axis ed b.1 := turned_cubie axis ed b.1 b.2]> acc
              else acc)
    as Hstep2 by (by intros acc [pos c]).
  rewrite (insert_loop_untouched _ fst snd step3 Hstep3).
  2:{ intros [p' c'] _ Hc Heq. simpl in *. subst p'.
      rewrite turn_pos_axis, Hp, Z.eqb_refl in Hc. done. }
  destruct (d !! p) as [c|] eqn:Hd; simpl.
  - apply (insert_loop_written (fun _ => true) (fun b => turn_pos axis ed b.1)
             (fun b => turned_cubie axis ed b.1 b.2) step2 Hstep2 _ _ (p, c));
      [|done|].
    + apply elem_of_map_to_list. rewrite face_cubies_of_lookup.
      by rewrite Hp, Z.eqb_refl.
    + intros [p' c'] Hin _ Heq. simpl in *.
      apply turn_pos_inj in Heq. subst p'.
      apply elem_of_map_to_list in Hin. rewrite face_cubies_of_lookup in Hin.
      rewrite Hp, Z.eqb_refl in Hin. congruence.
  - rewrite (insert_loop_untouched (fun _ => true) (fun b => turn_pos axis ed b.1)
               (fun b => turned_cubie axis ed b.1 b.2) step2 Hstep2); [done|].
    intros [p' c'] Hin _ Heq. simpl in *.
    apply turn_pos_inj in Heq. subst p'.
    apply elem_of_map_to_list in Hin. rewrite face_cubies_of_lookup in Hin.
    rewrite Hp, Z.eqb_refl in Hin. congruence.
Qed.

Lemma turned_lookup_rest (axis : Axis) (sign direction : Z)
    (d : gmap Pos Cubie) (q : Pos) :
  pos_get q axis <> sign ->
  turned axis sign direction d !! q = d !! q.
Proof.
  intros Hq. unfold turned.
  set (ed := direction * sign).
  set (step3 := fun (nc : gmap Pos Cubie) '(pos, cubie) =>
                  if negb (pos_get pos axis =? sign) then <[pos := cubie]> nc
                  else nc).
  set (step2 := fun (nc : gmap Pos Cubie) '(pos, cubie) =>
                  <[turn_pos axis ed pos := turned_cubie axis ed pos cubie]> nc).
  assert (forall acc b, step3 acc b
            = if negb (pos_get b.1 axis =? sign) then <[b.1 := b.2]> acc else acc)
    as Hstep3 by (by intros acc [pos c]).
  assert (forall acc b, step2 acc b
            = if true then <[turn_pos axis ed b.1 := turned_cubie axis ed b.1 b.2]> acc
              else acc)
    as Hstep2 by (by intros acc [pos c]).
  assert (negb (pos_get q axis =? sign) = true) as Hqb.
  { apply negb_true_iff, Z.eqb_neq. done. }
  destruct (d !! q) as [c|] eqn:Hd.
  - apply (insert_loop_written _ fst snd step3 Hstep3 _ _ (q, c)); simpl; [|done|].
    + by apply elem_of_map_to_list.
    + intros [p' c'] Hin _ Heq. simpl in *. subst p'.
      apply elem_of_map_to_list in Hin. congruence.
  - rewrite (insert_loop_untouched _ fst snd step3 Hstep3).
    2:{ intros [p' c'] Hin _ Heq. simpl in *. subst p'.
        apply elem_of_map_to_list in Hin. congruence. }
    rewrite (insert_loop_untouched (fun _ => true) (fun b => turn_pos axis ed b.1)
               (fun b => turned_cubie axis ed b.1 b.2) step2 Hstep2); [done|].
    intros [p' c'] Hin _ Heq. simpl in *. subst q.
    apply elem_of_map_to_list in Hin. rewrite face_cubies_of_lookup in Hin.
    rewrite turn_pos_axis in Hq.
    destruct (pos_get p' axis =? sign) eqn:E; [|done].
    apply Z.eqb_eq in E. done.
Qed.

(** ** Colours of a turned cubie *)

Lemma get_set_color (cs : Colors) (k k' : FaceKey) (v : option Z) :
  get_color (set_color cs k v) k' = if decide (k = k') then v else get_color cs k'.
Proof. by destruct k, k'. Qed.

Lemma colors_ext (cs cs' : Colors) :
  (forall k, get_color cs k = get_color cs' k) -> cs = cs'.
Proof.
  intros H. destruct cs, cs'.
  pose proof (H Xp). pose proof (H Xm). pose proof (H Yp).
  pose proof (H Ym). pose proof (H Zp). pose proof (H Zm).
  simpl in *. congruence.
Qed.

(** A label no item of the mapping writes keeps its colour. *)
Lemma apply_face_mapping_untouched (M : list (FaceKey * FaceKey))
    (old_colors new_colors : Colors) (k' : FaceKey) :
  (forall j, (j, k') ∉ M) ->
  get_color (apply_face_mapping M old_colors new_colors) k'
  = get_color new_colors k'.
Proof.
  unfold apply_face_mapping.
  induction M as [|[a b] M IH] using rev_ind; intros Hno; [done|].
  rewrite foldl_snoc.
  assert (b <> k') as Hb.
  { intros ->. apply (Hno a), elem_of_app. right. by apply list_elem_of_singleton. }
  assert (forall j, (j, k') ∉ M) as HM.
  { intros j Hj. apply (Hno j), elem_of_app. by left. }
  destruct (get_color old_colors a); [|by apply IH].
  rewrite get_set_color. destruct (decide (b = k')); [done|by apply IH].
Qed.

(** A label written from the single label [k] gets the colour of [k], unless
    that is [None]. *)
Lemma apply_face_mapping_written (M : list (FaceKey * FaceKey))
    (old_colors new_colors : Colors) (k k' : FaceKey) :
  (k, k') ∈ M ->
  (forall j, (j, k') ∈ M -> j = k) ->
  get_color (apply_face_mapping M old_colors new_colors) k'
  = match get_color old_colors k with
    | Some c => Some c
    | None => get_color new_colors k'
    end.
Proof.
  induction M as [|[a b] M IH] using rev_ind; intros Hin Huniq.
  { by apply elem_of_nil in Hin. }
  assert (forall j, (j, k') ∈ M -> j = k) as HM.
  { intros j Hj. apply Huniq, elem_of_app. by left. }
  unfold apply_face_mapping in *. rewrite foldl_snoc.
  destruct (decide (b = k')) as [->|Hb].
  - assert (a = k) as ->.
    { apply Huniq, elem_of_app. right. by apply list_elem_of_singleton. }
    destruct (get_color old_colors k) eqn:Hk.
    + rewrite get_set_color. by destruct (decide (k' = k')).
    + destruct (decide ((k, k') ∈ M)) as [HinM|HnotM].
      * by rewrite IH.
      * apply (apply_face_mapping_untouched M old_colors new_colors k').
        intros j Hj. pose proof (HM j Hj). by subst.
  - assert ((k, k') ∈ M) as HinM.
    { apply elem_of_app in Hin as [?|Hin%list_elem_of_singleton]; [done|].
      congruence. }
    destruct (get_color old_colors a).
    + rewrite get_set_color. destruct (decide (b = k')); [done|by apply IH].
    + by apply IH.
Qed.

Lemma image_in_mapping (axis : Axis) (cw : bool) (k : FaceKey) :
  (k, image axis cw k) ∈ mapping_of axis cw.
Proof.
  apply list_elem_of_In. destruct axis, cw, k; vm_compute; tauto.
Qed.

Lemma image_inj (axis : Axis) (cw : bool) (j k : FaceKey) :
  image axis cw j = image axis cw k -> j = k.
Proof. destruct axis, cw, j, k; vm_compute; congruence. Qed.

Lemma mapping_is_image (axis : Axis) (cw : bool) (j k' : FaceKey) :
  (j, k') ∈ mapping_of axis cw -> k' = image axis cw j.
Proof.
  intros H%list_elem_of_In. revert H.
  destruct axis, cw, j; vm_compute; intuition congruence.
Qed.

Lemma image_inverse (axis : Axis) (cw : bool) (k : FaceKey) :
  image axis cw (image axis (negb cw) k) = k.
Proof. by destruct axis, cw, k. Qed.

Lemma image_four (axis : Axis) (cw : bool) (k : FaceKey) :
  image axis cw (image axis cw (image axis cw (image axis cw k))) = k.
Proof. by destruct axis, cw, k. Qed.

Lemma mapped_color (axis : Axis) (cw : bool) (old_colors new_colors : Colors)
    (k : FaceKey) :
  get_color (apply_face_mapping (mapping_of axis cw) old_colors new_colors)
            (image axis cw k)
  = match get_color old_colors k with
    | Some c => Some c
    | None => get_color new_colors (image axis cw k)
    end.
Proof.
  apply apply_face_mapping_written; [apply image_in_mapping|].
  intros j Hj%mapping_is_image. by apply image_inj in Hj.
Qed.

(** *** Outward labels turn with the position *)

Ltac by_coordinates :=
  repeat match goal with
         | |- context [Z.eqb ?a ?b] => destruct (Z.eqb_spec a b)
         end;
  first [ reflexivity | lia ].

Lemma outward_turn (axis : Axis) (ed : Z) (p : Pos) (k : FaceKey) :
  outward (turn_pos axis ed p) (image axis (ed =? 1) k) = outward p k.
Proof.
  destruct p as [[x y] z]. unfold turn_pos, rotated_pos, outward.
  destruct (ed =? 1), axis, k; simpl; by_coordinates.
Qed.

Lemma Cubie_init_hidden (p : Pos) (k : FaceKey) :
  outward p k = false ->
  get_color (colors (Cubie_init (pos_get p AX) (pos_get p AY) (pos_get p AZ))) k
  = None.
Proof.
  destruct p as [[x y] z]. unfold outward.
  destruct k; simpl; by intros ->.
Qed.

Lemma cubie_ok_spec (p : Pos) (c : Cubie) :
  cubie_ok p c = true <->
  (cubie_x c, cubie_y c, cubie_z c) = p /\
  forall k, get_color (colors c) k = None -> outward p k = false.
Proof.
  unfold cubie_ok. rewrite andb_true_iff, bool_decide_eq_true, forallb_forall.
  split; intros [Hp Hk]; split; try done.
  - intros k Hnone. specialize (Hk k).
    destruct (outward p k); [|done].
    rewrite Hnone in Hk. simpl in Hk.
    assert (In k all_keys) as Hin by (destruct k; simpl; tauto).
    apply Hk in Hin. done.
  - intros k _. destruct (outward p k) eqn:Ho; [|done]. simpl.
    apply bool_decide_eq_true.
    destruct (get_color (colors c) k) eqn:Hc; [done|].
    apply Hk in Hc. congruence.
Qed.

(** Every colour of a well-formed cubie moves to the image of its label, and
    no default colour of the fresh cubie survives. *)
Lemma turned_cubie_get (axis : Axis) (ed : Z) (p : Pos) (c : Cubie) (k : FaceKey) :
  cubie_ok p c = true ->
  get_color (colors (turned_cubie axis ed p c)) (image axis (ed =? 1) k)
  = get_color (colors c) k.
Proof.
  intros [_ Hk]%cubie_ok_spec.
  unfold turned_cubie. simpl. rewrite mapped_color.
  destruct (get_color (colors c) k) eqn:Hc; [done|].
  apply Cubie_init_hidden. rewrite outward_turn. by apply Hk.
Qed.

Lemma turned_cubie_pos (axis : Axis) (ed : Z) (p : Pos) (c : Cubie) :
  let c' := turned_cubie axis ed p c in
  (cubie_x c', cubie_y c', cubie_z c') = turn_pos axis ed p.
Proof.
  simpl. by destruct (turn_pos axis ed p) as [[x y] z].
Qed.

Lemma turned_cubie_ok (axis : Axis) (ed : Z) (p : Pos) (c : Cubie) :
  cubie_ok p c = true ->
  cubie_ok (turn_pos axis ed p) (turned_cubie axis ed p c) = true.
Proof.
  intros Hok. apply cubie_ok_spec. split; [apply turned_cubie_pos|].
  intros k'. rewrite <- (image_inverse axis (ed =? 1) k').
  rewrite turned_cubie_get, outward_turn by done.
  apply cubie_ok_spec in Hok as [_ Hk]. apply Hk.
Qed.

Lemma cubie_ext (c c' : Cubie) :
  (cubie_x c, cubie_y c, cubie_z c) = (cubie_x c', cubie_y c', cubie_z c') ->
  (forall k, get_color (colors c) k = get_color (colors c') k) ->
  c = c'.
Proof.
  destruct c, c'. simpl. intros [= -> -> ->] H%colors_ext. by subst.
Qed.

(** ** Turning positions back *)

Lemma turn_pos_four (axis : Axis) (ed : Z) (p : Pos) :
  turn_pos axis ed (turn_pos axis ed (turn_pos axis ed (turn_pos axis ed p))) = p.
Proof.
  destruct p as [[x y] z]. unfold turn_pos, rotated_pos.
  destruct axis, (ed =? 1); simpl;
    repeat match goal with |- (_, _) = (_, _) => f_equal end; lia.
Qed.

Lemma turn_pos_inverse (axis : Axis) (ed ed' : Z) (p : Pos) :
  (ed' =? 1) = negb (ed =? 1) ->
  turn_pos axis ed' (turn_pos axis ed p) = p.
Proof.
  destruct p as [[x y] z]. unfold turn_pos, rotated_pos. intros ->.
  destruct axis, (ed =? 1); simpl;
    repeat match goal with |- (_, _) = (_, _) => f_equal end; lia.
Qed.

Lemma back_branch (ed : Z) : (back ed =? 1) = negb (ed =? 1).
Proof. unfold back. by destruct (ed =? 1). Qed.

Lemma turn_pos_back (axis : Axis) (ed : Z) (q : Pos) :
  turn_pos axis ed (turn_pos axis (back ed) q) = q.
Proof.
  apply turn_pos_inverse. rewrite back_branch. by destruct (ed =? 1).
Qed.

(** ** The invariant is kept *)

Lemma cube_ok_spec (d : gmap Pos Cubie) :
  cube_ok d = true <-> forall p c, d !! p = Some c -> cubie_ok p c = true.
Proof.
  unfold cube_ok. rewrite forallb_forall. split.
  - intros H p c Hp. apply (H (p, c)).
    by apply list_elem_of_In, elem_of_map_to_list.
  - intros H [p c] Hin. apply H.
    by apply elem_of_map_to_list, list_elem_of_In.
Qed.

Lemma turned_ok (axis : Axis) (sign direction : Z) (d : gmap Pos Cubie) :
  cube_ok d = true -> cube_ok (turned axis sign direction d) = true.
Proof.
  rewrite !cube_ok_spec. intros Hd q c' Hq.
  destruct (decide (pos_get q axis = sign)) as [Hs|Hs].
  - rewrite <- (turn_pos_back axis (direction * sign) q) in Hq |- *.
    rewrite turned_lookup_face in Hq by (by rewrite turn_pos_axis).
    destruct (d !! turn_pos axis (back (direction * sign)) q) as [c|] eqn:Hc;
      [|done].
    simpl in Hq. injection Hq as <-.
    by apply turned_cubie_ok, Hd.
  - rewrite turned_lookup_rest in Hq by done. by apply Hd.
Qed.

(** ** Four quarter turns, and a turn and its inverse *)

Lemma turned_four (axis : Axis) (sign direction : Z) (d : gmap Pos Cubie) :
  cube_ok d = true ->
  let T := turned axis sign direction in
  T (T (T (T d))) = d.
Proof.
  intros Hd T. apply map_eq. intros q.
  destruct (decide (pos_get q axis = sign)) as [Hs|Hs].
  - rewrite <- (turn_pos_four axis (direction * sign) q) at 1.
    unfold T.
    rewrite !turned_lookup_face by (by rewrite ?turn_pos_axis).
    set (ed := direction * sign).
    destruct (d !! q) as [c|] eqn:Hc; [|done]. simpl. f_equal.
    assert (cubie_ok q c = true) as H0 by (by eapply cube_ok_spec).
    pose proof (turned_cubie_ok axis ed _ _ H0) as H1.
    pose proof (turned_cubie_ok axis ed _ _ H1) as H2.
    pose proof (turned_cubie_ok axis ed _ _ H2) as H3.
    apply cubie_ext.
    + rewrite turned_cubie_pos, turn_pos_four.
      symmetry. by apply cubie_ok_spec in H0 as [? _].
    + intros k. rewrite <- (image_four axis (ed =? 1) k) at 1.
      by rewrite !turned_cubie_get.
  - unfold T. by rewrite !turned_lookup_rest.
Qed.

Lemma turned_inverse (axis : Axis) (sign direction direction' : Z)
    (d : gmap Pos Cubie) :
  cube_ok d = true ->
  (direction' * sign =? 1) = negb (direction * sign =? 1) ->
  turned axis sign direction' (turned axis sign direction d) = d.
Proof.
  intros Hd Hdir. apply map_eq. intros q.
  destruct (decide (pos_get q axis = sign)) as [Hs|Hs].
  - rewrite <- (turn_pos_inverse axis (direction * sign) (direction' * sign) q)
      at 1 by done.
    rewrite !turned_lookup_face by (by rewrite ?turn_pos_axis).
    set (ed := direction * sign) in *. set (ed' := direction' * sign) in *.
    destruct (d !! q) as [c|] eqn:Hc; [|done]. simpl. f_equal.
    assert (cubie_ok q c = true) as H0 by (by eapply cube_ok_spec).
    pose proof (turned_cubie_ok axis ed _ _ H0) as H1.
    apply cubie_ext.
    + rewrite turned_cubie_pos, turn_pos_inverse by done.
      symmetry. by apply cubie_ok_spec in H0 as [? _].
    + intros k.
      rewrite <- (image_inverse axis (ed' =? 1) k) at 1.
      rewrite turned_cubie_get by done.
      assert (negb (ed' =? 1) = (ed =? 1)) as -> by (rewrite Hdir; by destruct (ed =? 1)).
      by rewrite turned_cubie_get.
  - by rewrite !turned_lookup_rest.
Qed.

(** ** [rotate_face] on a valid and on an invalid face *)

Lemma FACE_AXES_valid (face : Z) :
  0 <= face <= 5 ->
  exists axis sign,
    FACE_AXES face = Return (axis, sign) /\ (sign = 1 \/ sign = -1).
Proof.
  intros H.
  assert (face = 0 \/ face = 1 \/ face = 2 \/ face = 3 \/ face = 4 \/ face = 5)
    as [->|[->|[->|[->|[->| ->]]]]] by lia;
    eexists _, _; (split; [reflexivity|lia]).
Qed.

Lemma FACE_AXES_invalid (face : Z) :
  ~ (0 <= face <= 5) -> FACE_AXES face = Raise KeyError.
Proof.
  intros H. unfold FACE_AXES, FACE_AXES_items, assoc.
  repeat match goal with
         | |- context [Z.eqb ?a ?b] => destruct (Z.eqb_spec a b); [lia|]
         end.
  done.
Qed.

Lemma rotate_face_turns (self : CubeModel) (face direction : Z)
    (axis : Axis) (sign : Z) :
  animating self = false ->
  FACE_AXES face = Return (axis, sign) ->
  rotate_face face direction self
  = (Return true,
     MkCubeModel (turned axis sign direction (cubies self)) false
                 (animation_progress self)
                 (history self ++ [(face, direction)])).
Proof.
  intros Ha Hf. unfold rotate_face. rewrite Ha, Hf. simpl.
  rewrite rotate_cubies_returns. unfold set_cubies, set_history. simpl.
  congruence.
Qed.

Lemma apply_moves_cons (face direction : Z) (moves : list (Z * Z))
    (self : CubeModel) :
  apply_moves ((face, direction) :: moves) self
  = apply_moves moves (snd (rotate_face face direction self)).
Proof. reflexivity. Qed.

Lemma apply_moves_app (moves moves' : list (Z * Z)) (self : CubeModel) :
  apply_moves (moves ++ moves') self = apply_moves moves' (apply_moves moves self).
Proof. unfold apply_moves. by rewrite foldl_app. Qed.

(** Several turns of one face. *)
Lemma apply_moves_one_face (dirs : list Z) (self : CubeModel) (face : Z)
    (axis : Axis) (sign : Z) :
  animating self = false ->
  FACE_AXES face = Return (axis, sign) ->
  cubies (apply_moves (pair face <$> dirs) self)
  = foldl (fun d direction => turned axis sign direction d) (cubies self) dirs.
Proof.
  intros Ha Hf. revert self Ha.
  induction dirs as [|direction dirs IH]; intros self Ha; [done|].
  rewrite fmap_cons, apply_moves_cons.
  rewrite (rotate_face_turns self _ _ axis sign) by done.
  cbn [snd foldl]. by rewrite IH.
Qed.

(** ** C1: closure *)

(** C1.  For every face in 0..5 and every direction in +1, -1, on a cube that
    is not animating and whose cubies satisfy the data-model invariant
    [cube_ok] (each cubie stored at its own position, with a colour on every
    outward label; it holds of the fresh cube and after every [rotate_face]
    call, see [reachable_ok]), four consecutive
    [rotate_face(face, direction)] calls leave the position-to-cubie mapping
    exactly as it was: same keys, and every cubie with the same coordinates
    and the same colour under each label. *)
Theorem closure_four_turns (self : CubeModel) (face direction : Z) :
  animating self = false ->
  cube_ok (cubies self) = true ->
  0 <= face <= 5 ->
  direction = 1 \/ direction = -1 ->
  cubies (apply_moves (replicate 4 (face, direction)) self) = cubies self.
Proof.
  intros Ha Hok Hface _.
  destruct (FACE_AXES_valid face Hface) as (axis & sign & Hf & _).
  change (replicate 4 (face, direction))
    with (pair face <$> replicate 4 direction).
  rewrite (apply_moves_one_face _ _ _ axis sign) by done.
  by apply turned_four.
Qed.

Lemma closure_four_turns_witness :
  animating CubeModel_init = false /\
  cube_ok (cubies CubeModel_init) = true /\
  cubies (apply_moves (replicate 4 (0, 1)) CubeModel_init)
  = cubies CubeModel_init.
Proof.
  split; [reflexivity|]. split; [vm_compute; reflexivity|].
  apply (closure_four_turns CubeModel_init 0 1);
    [reflexivity | vm_compute; reflexivity | lia | left; reflexivity].
Defined.

(** The invariant is what makes the four turns close.  A dict that is not a
    cube state of the data model, here a single corner cubie without any
    colour, which no code path builds, picks up the default colours of the
    fresh [Cubie] objects on the way. *)
Example closure_off_the_data_model :
  let blank := MkCubie 1 1 1 (MkColors None None None None None None) in
  let self := MkCubeModel {[ (1, 1, 1) := blank ]} false 0 [] in
  cube_ok (cubies self) = false /\
  cubies (apply_moves (replicate 4 (0, 1)) self) !! (1, 1, 1)
  = Some (MkCubie 1 1 1 (MkColors (Some BLUE) None (Some ORANGE) None
                                  (Some WHITE) None)).
Proof. by vm_compute. Qed.

(** ** C2: inverse *)

(** C2.  For every face in 0..5, on a cube that is not animating and whose
    cubies satisfy the data-model invariant [cube_ok] (as in C1),
    [rotate_face(face, +1)] followed
    by [rotate_face(face, -1)] leaves the position-to-cubie mapping as it was
    before the two calls, and so do the two calls in the opposite order. *)
Theorem inverse_turns (self : CubeModel) (face : Z) :
  animating self = false ->
  cube_ok (cubies self) = true ->
  0 <= face <= 5 ->
  cubies (apply_moves [(face, 1); (face, -1)] self) = cubies self /\
  cubies (apply_moves [(face, -1); (face, 1)] self) = cubies self.
Proof.
  intros Ha Hok Hface.
  destruct (FACE_AXES_valid face Hface) as (axis & sign & Hf & Hsign).
  change [(face, 1); (face, -1)] with (pair face <$> [1; -1]).
  change [(face, -1); (face, 1)] with (pair face <$> [-1; 1]).
  rewrite !(apply_moves_one_face _ _ _ axis sign) by done.
  split; apply turned_inverse; try done; by destruct Hsign as [-> | ->].
Qed.

Lemma inverse_turns_witness :
  animating CubeModel_init = false /\
  cube_ok (cubies CubeModel_init) = true /\
  cubies (apply_moves [(3, 1); (3, -1)] CubeModel_init) = cubies CubeModel_init /\
  cubies (apply_moves [(3, -1); (3, 1)] CubeModel_init) = cubies CubeModel_init.
Proof.
  split; [reflexivity|]. split; [vm_compute; reflexivity|].
  apply (inverse_turns CubeModel_init 3);
    [reflexivity | vm_compute; reflexivity | lia].
Defined.

(** ** Colour conservation *)

Lemma facelets_of_relabelled (axis : Axis) (cw : bool) (cs cs' : Colors) :
  (forall k, get_color cs' (image axis cw k) = get_color cs k) ->
  facelets_of cs' ≡ₚ facelets_of cs.
Proof.
  intros H.
  pose proof (H Xp) as H1. pose proof (H Xm) as H2.
  pose proof (H Yp) as H3. pose proof (H Ym) as H4.
  pose proof (H Zp) as H5. pose proof (H Zm) as H6. clear H.
  destruct cs as [o1 o2 o3 o4 o5 o6], cs' as [o1' o2' o3' o4' o5' o6'].
  unfold facelets_of. apply omap_Permutation.
  apply (Permutation_count_occ (fun x y : option Z => decide (x = y))).
  intros v.
  destruct axis, cw; vm_compute in H1, H2, H3, H4, H5, H6; subst; simpl;
    repeat match goal with
           | |- context [decide (?o = v)] => destruct (decide (o = v))
           end;
    reflexivity.
Qed.

Lemma moved_fst (axis : Axis) (sign direction : Z) (item : Pos * Cubie) :
  (moved axis sign direction item).1 = moved_pos axis sign direction item.1.
Proof.
  unfold moved, moved_pos. by destruct (pos_get item.1 axis =? sign).
Qed.

Lemma moved_pos_inj (axis : Axis) (sign direction : Z) :
  Inj (=) (=) (moved_pos axis sign direction).
Proof.
  intros p p'. unfold moved_pos.
  destruct (Z.eqb_spec (pos_get p axis) sign) as [Hp|Hp],
           (Z.eqb_spec (pos_get p' axis) sign) as [Hp'|Hp'].
  - apply turn_pos_inj.
  - intros <-. by rewrite turn_pos_axis in Hp'.
  - intros ->. by rewrite turn_pos_axis in Hp.
  - done.
Qed.

Lemma moved_keys_NoDup (axis : Axis) (sign direction : Z) (l : list (Pos * Cubie)) :
  NoDup l.*1 -> NoDup (moved axis sign direction <$> l).
Proof.
  intros Hl. apply (NoDup_fmap_1 fst).
  assert ((moved axis sign direction <$> l).*1
          = moved_pos axis sign direction <$> l.*1) as ->.
  { induction l as [|item l IH]; [done|].
    rewrite !fmap_cons, moved_fst, IH; [done|]. by inversion Hl. }
  apply NoDup_fmap_2; [apply moved_pos_inj|done].
Qed.

Lemma map_to_list_turned (axis : Axis) (sign direction : Z) (d : gmap Pos Cubie) :
  map_to_list (turned axis sign direction d)
  ≡ₚ moved axis sign direction <$> map_to_list d.
Proof.
  apply NoDup_Permutation.
  - apply NoDup_map_to_list.
  - apply moved_keys_NoDup, NoDup_fst_map_to_list.
  - intros [q c']. rewrite elem_of_map_to_list, list_elem_of_fmap. split.
    + intros Hq.
      destruct (decide (pos_get q axis = sign)) as [Hs|Hs].
      * rewrite <- (turn_pos_back axis (direction * sign) q) in Hq.
        rewrite turned_lookup_face in Hq by (by rewrite turn_pos_axis).
        destruct (d !! turn_pos axis (back (direction * sign)) q) as [c|] eqn:Hc;
          [|done].
        simpl in Hq. injection Hq as <-.
        exists (turn_pos axis (back (direction * sign)) q, c). split.
        -- unfold moved. simpl.
           rewrite turn_pos_axis, Hs, Z.eqb_refl.
           by rewrite turn_pos_back.
        -- by apply elem_of_map_to_list.
      * rewrite turned_lookup_rest in Hq by done.
        exists (q, c'). split; [|by apply elem_of_map_to_list].
        unfold moved. simpl.
        by destruct (Z.eqb_spec (pos_get q axis) sign).
    + intros ([p c] & Heq & Hin%elem_of_map_to_list).
      unfold moved in Heq. simpl in Heq.
      destruct (Z.eqb_spec (pos_get p axis) sign) as [Hp|Hp].
      * injection Heq as -> ->.
        rewrite turned_lookup_face by done. by rewrite Hin.
      * injection Heq as -> ->.
        by rewrite turned_lookup_rest.
Qed.

Lemma bind_facelets_Permutation (f g : Pos * Cubie -> list Z)
    (l : list (Pos * Cubie)) :
  (forall item, item ∈ l -> f item ≡ₚ g item) ->
  l ≫= f ≡ₚ l ≫= g.
Proof.
  induction l as [|item l IH]; intros H; [done|].
  rewrite !bind_cons. apply Permutation_app.
  - apply H. by left.
  - apply IH. intros item' Hin. apply H. by right.
Qed.

Lemma facelets_turned (axis : Axis) (sign direction : Z) (d : gmap Pos Cubie) :
  cube_ok d = true ->
  facelets (turned axis sign direction d) ≡ₚ facelets d.
Proof.
  intros Hd. unfold facelets.
  rewrite map_to_list_turned.
  rewrite list_fmap_bind.
  apply bind_facelets_Permutation.
  intros [p c] Hin%elem_of_map_to_list.
  unfold moved, compose. simpl.
  destruct (pos_get p axis =? sign); [|done].
  apply (facelets_of_relabelled axis (direction * sign =? 1)).
  intros k. apply turned_cubie_get. by eapply cube_ok_spec.
Qed.

(** ** Every call keeps the invariant *)

(** Whatever the arguments (valid or not, animating or not), [rotate_face]
    leaves a cube whose cubies satisfy the invariant. *)
Lemma rotate_face_ok (self : CubeModel) (face direction : Z) :
  cube_ok (cubies self) = true ->
  cube_ok (cubies (snd (rotate_face face direction self))) = true.
Proof.
  intros Hok. unfold rotate_face.
  destruct (animating self) eqn:Ha; [done|].
  destruct (FACE_AXES face) as [[axis sign]|e]; simpl; [|done].
  rewrite rotate_cubies_returns. simpl. by apply turned_ok.
Qed.

Lemma apply_moves_ok (moves : list (Z * Z)) (self : CubeModel) :
  cube_ok (cubies self) = true ->
  cube_ok (cubies (apply_moves moves self)) = true.
Proof.
  revert self. induction moves as [|[face direction] moves IH]; intros self Hok;
    [done|].
  rewrite apply_moves_cons. by apply IH, rotate_face_ok.
Qed.

(** ** Sequences of valid moves *)

Lemma rotate_face_animating (self : CubeModel) (face direction : Z) :
  animating (snd (rotate_face face direction self)) = animating self.
Proof.
  unfold rotate_face. destruct (animating self) eqn:Ha; [done|].
  by destruct (obind _ _).
Qed.

Lemma apply_moves_animating (moves : list (Z * Z)) (self : CubeModel) :
  animating (apply_moves moves self) = animating self.
Proof.
  revert self. induction moves as [|[face direction] moves IH]; intros self; [done|].
  by rewrite apply_moves_cons, IH, rotate_face_animating.
Qed.

(** What a sequence of valid moves keeps and records. *)
Lemma apply_moves_valid (moves : list (Z * Z)) (self : CubeModel) :
  Forall valid_move moves ->
  animating self = false ->
  cube_ok (cubies self) = true ->
  cube_ok (cubies (apply_moves moves self)) = true /\
  facelets (cubies (apply_moves moves self)) ≡ₚ facelets (cubies self) /\
  history (apply_moves moves self) = history self ++ moves.
Proof.
  intros Hmoves. revert self.
  induction Hmoves as [|[face direction] moves [Hface _] _ IH]; intros self Ha Hok.
  { simpl. by rewrite app_nil_r. }
  destruct (FACE_AXES_valid face Hface) as (axis & sign & Hf & _).
  rewrite apply_moves_cons, (rotate_face_turns self _ _ axis sign) by done.
  cbn [snd].
  destruct (IH (MkCubeModel (turned axis sign direction (cubies self)) false
                            (animation_progress self)
                            (history self ++ [(face, direction)])))
    as (Hok' & Hperm & Hhist); [done|by apply turned_ok|].
  split; [done|]. split.
  - rewrite Hperm. simpl. by apply facelets_turned.
  - rewrite Hhist. simpl. by rewrite <- app_assoc.
Qed.

Lemma CubeModel_init_ok : cube_ok (cubies CubeModel_init) = true.
Proof. by vm_compute. Qed.

(** The data-model invariant holds in every state that [rotate_face] calls,
    with any arguments, reach from the fresh cube. *)
Lemma reachable_ok (moves : list (Z * Z)) :
  cube_ok (cubies (apply_moves moves CubeModel_init)) = true.
Proof. apply apply_moves_ok, CubeModel_init_ok. Qed.

(** ** C3: colour conservation *)

(** C3.  After any finite sequence of [rotate_face] calls with valid faces and
    directions +1 or -1 on a freshly created cube, the non-[None] colour
    entries of all cubies are a rearrangement of those of the solved cube:
    54 facelets, 9 of each of the six colours. *)
Theorem color_conservation (moves : list (Z * Z)) :
  Forall valid_move moves ->
  let fl := facelets (cubies (apply_moves moves CubeModel_init)) in
  fl ≡ₚ facelets (cubies CubeModel_init) /\
  length fl = 54%nat /\
  forall color, color ∈ [WHITE; YELLOW; RED; ORANGE; BLUE; GREEN] ->
                count_occ Z.eq_dec fl color = 9%nat.
Proof.
  intros Hmoves fl.
  assert (fl ≡ₚ facelets (cubies CubeModel_init)) as Hperm.
  { by apply (apply_moves_valid moves CubeModel_init Hmoves). }
  split; [done|]. split.
  - rewrite Hperm. by vm_compute.
  - intros color Hc.
    rewrite (proj1 (Permutation_count_occ Z.eq_dec _ _) Hperm).
    repeat (apply elem_of_cons in Hc as [->|Hc]; [by vm_compute|]).
    by apply elem_of_nil in Hc.
Qed.

Lemma color_conservation_witness :
  let fl := facelets (cubies (apply_moves [(0, 1); (2, -1); (5, 1)] CubeModel_init)) in
  fl ≡ₚ facelets (cubies CubeModel_init) /\
  length fl = 54%nat /\
  forall color, color ∈ [WHITE; YELLOW; RED; ORANGE; BLUE; GREEN] ->
                count_occ Z.eq_dec fl color = 9%nat.
Proof.
  apply (color_conservation [(0, 1); (2, -1); (5, 1)]).
  repeat constructor; simpl; lia.
Defined.

(** ** C4: history and inverse round trip *)

Lemma get_solution_reversed (self : CubeModel) :
  get_solution self = negate_move <$> reverse (history self).
Proof.
  unfold get_solution.
  assert (forall l acc,
            foldl (fun solution '(face, direction) =>
                     solution ++ [(face, - direction)]) acc l
            = acc ++ (negate_move <$> l)) as H.
  { induction l as [|[f d] l IH]; intros acc; simpl.
    - by rewrite app_nil_r.
    - rewrite IH. by rewrite <- app_assoc. }
  by rewrite H.
Qed.

Lemma negate_move_valid (m : Z * Z) : valid_move m -> valid_move (negate_move m).
Proof. destruct m as [f d]. unfold valid_move. simpl. lia. Qed.

Lemma undo_moves (moves : list (Z * Z)) (self : CubeModel) :
  Forall valid_move moves ->
  animating self = false ->
  cube_ok (cubies self) = true ->
  cubies (apply_moves (negate_move <$> reverse moves) (apply_moves moves self))
  = cubies self.
Proof.
  intros Hmoves. revert self.
  induction Hmoves as [|[face direction] moves [Hface Hdir] Hmoves IH];
    intros self Ha Hok; [done|].
  destruct (FACE_AXES_valid face Hface) as (axis & sign & Hf & Hsign).
  rewrite reverse_cons, fmap_app, apply_moves_app, apply_moves_cons.
  rewrite (rotate_face_turns self _ _ axis sign) by done. cbn [snd].
  set (s1 := MkCubeModel _ _ _ _).
  assert (cube_ok (cubies s1) = true) as Hok1 by (by apply turned_ok).
  specialize (IH s1 eq_refl Hok1).
  set (s2 := apply_moves _ (apply_moves moves s1)) in *.
  assert (animating s2 = false) as Ha2.
  { unfold s2. by rewrite !apply_moves_animating. }
  change (negate_move <$> [(face, direction)]) with (pair face <$> [- direction]).
  rewrite (apply_moves_one_face _ _ _ axis sign) by done.
  cbn [foldl]. rewrite IH. simpl.
  apply turned_inverse; [done|].
  simpl in Hdir. by destruct Hsign as [-> | ->], Hdir as [-> | ->].
Qed.

(** C4.  After any sequence of [rotate_face] calls with valid faces and
    directions +1 or -1 on a freshly created cube, the history is that
    sequence, [get_solution()] returns it reversed with every direction
    negated, and applying the returned moves in order with [rotate_face]
    brings the position-to-cubie mapping back to that of the solved cube. *)
Theorem history_round_trip (moves : list (Z * Z)) :
  Forall valid_move moves ->
  let scrambled := apply_moves moves CubeModel_init in
  history scrambled = moves /\
  get_solution scrambled = negate_move <$> reverse (history scrambled) /\
  cubies (apply_moves (get_solution scrambled) scrambled)
  = cubies CubeModel_init.
Proof.
  intros Hmoves scrambled.
  assert (history scrambled = moves) as Hh.
  { by apply (apply_moves_valid moves CubeModel_init Hmoves). }
  split; [done|]. split; [apply get_solution_reversed|].
  rewrite get_solution_reversed, Hh.
  by apply undo_moves.
Qed.

Lemma history_round_trip_witness :
  let scrambled := apply_moves [(4, 1); (1, -1); (4, 1)] CubeModel_init in
  history scrambled = [(4, 1); (1, -1); (4, 1)] /\
  get_solution scrambled = negate_move <$> reverse (history scrambled) /\
  cubies (apply_moves (get_solution scrambled) scrambled)
  = cubies CubeModel_init.
Proof.
  apply (history_round_trip [(4, 1); (1, -1); (4, 1)]).
  repeat constructor; simpl; lia.
Defined.

(** ** C5: solved detection *)

(** C5.  A freshly created cube is solved, and after exactly one
    [rotate_face(face, direction)] with a face in 0..5 and a direction +1 or
    -1 it is not. *)
Theorem solved_detection :
  is_solved CubeModel_init = true /\
  forall face direction,
    0 <= face <= 5 ->
    direction = 1 \/ direction = -1 ->
    fst (rotate_face face direction CubeModel_init) = Return true /\
    is_solved (snd (rotate_face face direction CubeModel_init)) = false.
Proof.
  split; [by vm_compute|].
  intros face direction Hface Hdir.
  assert (face = 0 \/ face = 1 \/ face = 2 \/ face = 3 \/ face = 4 \/ face = 5)
    as [->|[->|[->|[->|[->| ->]]]]] by lia;
    destruct Hdir as [-> | ->]; by vm_compute.
Qed.

Lemma solved_detection_witness :
  is_solved CubeModel_init = true /\
  fst (rotate_face 3 (-1) CubeModel_init) = Return true /\
  is_solved (snd (rotate_face 3 (-1) CubeModel_init)) = false.
Proof.
  split; [exact (proj1 solved_detection)|].
  apply (proj2 solved_detection 3 (-1)); [lia | right; reflexivity].
Defined.

(** ** C6: the Top-turn scenario *)

(** C6.  On a freshly created cube, after the single call
    [rotate_face(0, +1)], [get_face_colors(0)] is the grid it was before the
    call, every cell White, and the top row of [get_face_colors(4)] is the
    top row [get_face_colors(2)] had before the call. *)
Theorem top_turn_scenario :
  let before := CubeModel_init in
  let after := snd (rotate_face 0 1 before) in
  fst (rotate_face 0 1 before) = Return true /\
  get_face_colors 0 after = get_face_colors 0 before /\
  get_face_colors 0 after = Return (replicate 3 (replicate 3 WHITE)) /\
  top_row (get_face_colors 4 after) = top_row (get_face_colors 2 before) /\
  top_row (get_face_colors 2 before) = Some [RED; RED; RED].
Proof. by vm_compute. Qed.

(** ** C7: an invalid face *)

(** Counterexample to C7 as stated: the failed call [rotate_face(6, 1)] on a
    fresh cube raises, yet the history is no longer what it was. *)
Lemma invalid_face_history_changes :
  fst (rotate_face 6 1 CubeModel_init) = Raise KeyError /\
  history (snd (rotate_face 6 1 CubeModel_init)) = [(6, 1)] /\
  history (snd (rotate_face 6 1 CubeModel_init)) <> history CubeModel_init.
Proof. by vm_compute. Qed.

(** In general the failed call has already recorded the move. *)
Lemma invalid_face_recorded (self : CubeModel) (face direction : Z) :
  animating self = false ->
  ~ (0 <= face <= 5) ->
  history (snd (rotate_face face direction self))
  = history self ++ [(face, direction)].
Proof.
  intros Ha Hface. unfold rotate_face.
  by rewrite Ha, (FACE_AXES_invalid face Hface).
Qed.

(** C7, amended.  With animating false and a face outside 0..5,
    [rotate_face] raises (the [KeyError] of the [FACE_AXES] lookup) instead of
    rotating, and the position-to-cubie mapping, the animating flag and the
    animation progress are what they were before the call. *)
Theorem invalid_face_rejected (self : CubeModel) (face direction : Z) :
  animating self = false ->
  ~ (0 <= face <= 5) ->
  fst (rotate_face face direction self) = Raise KeyError /\
  cubies (snd (rotate_face face direction self)) = cubies self /\
  animating (snd (rotate_face face direction self)) = animating self /\
  animation_progress (snd (rotate_face face direction self))
  = animation_progress self.
Proof.
  intros Ha Hface. unfold rotate_face.
  rewrite Ha, (FACE_AXES_invalid face Hface). simpl. by rewrite Ha.
Qed.

Lemma invalid_face_rejected_witness :
  animating CubeModel_init = false /\
  ~ (0 <= 6 <= 5) /\
  fst (rotate_face 6 1 CubeModel_init) = Raise KeyError /\
  cubies (snd (rotate_face 6 1 CubeModel_init)) = cubies CubeModel_init /\
  animating (snd (rotate_face 6 1 CubeModel_init)) = animating CubeModel_init /\
  animation_progress (snd (rotate_face 6 1 CubeModel_init))
  = animation_progress CubeModel_init.
Proof.
  split; [reflexivity|]. split; [lia|].
  apply (invalid_face_rejected CubeModel_init 6 1); [reflexivity | lia].
Defined.

(** ** C8: the animating gate *)

(** C8.  While the animating flag is true, [rotate_face] returns [False] and
    [randomize] returns [False], for every face, direction and move count,
    and the cube (cubies, history and all) is the one passed in; [randomize]
    consumes no random draw either. *)
Theorem animating_gate (self : CubeModel) (face direction num_moves : Z)
    (g : rng) :
  animating self = true ->
  rotate_face face direction self = (Return false, self) /\
  randomize num_moves g self = (Return false, g, self).
Proof.
  intros Ha. unfold rotate_face, randomize. by rewrite Ha.
Qed.

Lemma animating_gate_witness :
  let busy := MkCubeModel (cubies CubeModel_init) true 0 [(2, 1)] in
  animating busy = true /\
  rotate_face 7 3 busy = (Return false, busy) /\
  randomize 20 (MkRng (fun n => n) 0) busy
  = (Return false, MkRng (fun n => n) 0, busy).
Proof.
  intros busy. split; [reflexivity|].
  apply (animating_gate busy 7 3 20 (MkRng (fun n => n) 0)). reflexivity.
Defined.

(** ** C9: randomize and its random stream *)

(** Counterexample to C9 as stated: [randomize] has no [seed] parameter, so
    the call [randomize(20, seed=42)] raises [TypeError]; no move is made and
    no draw is consumed. *)
Lemma randomize_takes_no_seed :
  call_randomize [20] [("seed"%string, 42)] (MkRng (fun n => n) 0) CubeModel_init
  = (Raise TypeError, MkRng (fun n => n) 0, CubeModel_init).
Proof. reflexivity. Qed.

Lemma random_choice_agree (seq : list Z) (g g' : rng) :
  draws g (consumed g) = draws g' (consumed g') ->
  (exists v, random_choice seq g = (Return v, MkRng (draws g) (S (consumed g))) /\
             random_choice seq g' = (Return v, MkRng (draws g') (S (consumed g'))))
  \/ (random_choice seq g = (Raise IndexError, g) /\
      random_choice seq g' = (Raise IndexError, g')).
Proof.
  intros H. unfold random_choice. rewrite H.
  destruct (seq !! _) as [v|]; [left; by exists v|by right].
Qed.

Lemma randomize_loop_agree (n : nat) (g g' : rng) (self : CubeModel) :
  (forall k : nat, (k < 2 * n)%nat ->
                   draws g (consumed g + k) = draws g' (consumed g' + k)) ->
  (randomize_loop n g self).1.1 = (randomize_loop n g' self).1.1 /\
  (randomize_loop n g self).2 = (randomize_loop n g' self).2.
Proof.
  revert g g' self. induction n as [|n IH]; intros g g' self H; [done|].
  assert (draws g (consumed g) = draws g' (consumed g')) as H0.
  { specialize (H 0%nat). rewrite !Nat.add_0_r in H. apply H. lia. }
  assert (draws g (S (consumed g)) = draws g' (S (consumed g'))) as H1.
  { specialize (H 1%nat). rewrite !Nat.add_1_r in H. apply H. lia. }
  cbn [randomize_loop].
  destruct (random_choice_agree faces g g' H0) as [(face & -> & ->)|[-> ->]];
    [|by split].
  destruct (random_choice_agree directions
              (MkRng (draws g) (S (consumed g)))
              (MkRng (draws g') (S (consumed g'))) H1)
    as [(direction & -> & ->)|[-> ->]]; [|by split].
  destruct (rotate_face face direction self) as [[r|e] self']; [|by split].
  apply IH. intros k Hk. cbn [draws consumed].
  specialize (H (S (S k))).
  replace (consumed g + S (S k))%nat with (S (S (consumed g)) + k)%nat in H by lia.
  replace (consumed g' + S (S k))%nat with (S (S (consumed g')) + k)%nat in H by lia.
  apply H. lia.
Qed.

(** C9, amended.  [randomize] takes the move count only; its randomness is
    the stream of draws of the process-wide generator, which the caller fixes
    by seeding that generator.  Two runs from the same cube with the same
    move count whose streams agree on the draws the run consumes (two per
    move) return the same result and leave identical cubes: the same
    position-to-cubie mapping and the same history. *)
Theorem randomize_deterministic (num_moves : Z) (g g' : rng) (self : CubeModel) :
  (forall k : nat, (k < 2 * Z.to_nat num_moves)%nat ->
                   draws g (consumed g + k) = draws g' (consumed g' + k)) ->
  (randomize num_moves g self).1.1 = (randomize num_moves g' self).1.1 /\
  (randomize num_moves g self).2 = (randomize num_moves g' self).2.
Proof.
  intros H. unfold randomize. destruct (animating self); [done|].
  destruct (randomize_loop_agree _ g g' self H) as [Hr Hs].
  destruct (randomize_loop _ g self) as [[[r|e] g1] s1],
           (randomize_loop _ g' self) as [[[r'|e'] g1'] s1'];
    simpl in *; simplify_eq; by split.
Qed.

Lemma randomize_deterministic_witness :
  let g := MkRng (fun n => n) 0 in
  let g' := MkRng (fun n => if (n <? 40)%nat then n else 0%nat) 0 in
  (randomize 20 g CubeModel_init).1.1 = (randomize 20 g' CubeModel_init).1.1 /\
  (randomize 20 g CubeModel_init).2 = (randomize 20 g' CubeModel_init).2.
Proof.
  intros g g'. apply (randomize_deterministic 20 g g' CubeModel_init).
  intros k Hk. cbn [draws consumed g g' Nat.add].
  assert (k < 40)%nat as Hk' by (vm_compute in Hk; lia).
  destruct (Nat.ltb_spec k 40); [reflexivity|lia].
Defined.

(** ** C10: the direction is not validated *)

Lemma turn_pos_branch (axis : Axis) (ed ed' : Z) (p : Pos) :
  (ed =? 1) = (ed' =? 1) -> turn_pos axis ed p = turn_pos axis ed' p.
Proof. unfold turn_pos, rotated_pos. by intros ->. Qed.

Lemma turned_cubie_branch (axis : Axis) (ed ed' : Z) (p : Pos) (c : Cubie) :
  (ed =? 1) = (ed' =? 1) -> turned_cubie axis ed p c = turned_cubie axis ed' p c.
Proof.
  intros H. unfold turned_cubie. by rewrite (turn_pos_branch axis ed ed' p H), H.
Qed.

(** The turned dict depends on the direction only through the test
    [effective_dir == 1]. *)
Lemma turned_branch (axis : Axis) (sign direction direction' : Z)
    (d : gmap Pos Cubie) :
  (direction * sign =? 1) = (direction' * sign =? 1) ->
  turned axis sign direction d = turned axis sign direction' d.
Proof.
  intros H. apply map_eq. intros q.
  destruct (decide (pos_get q axis = sign)) as [Hs|Hs].
  - rewrite <- (turn_pos_back axis (direction * sign) q).
    rewrite turned_lookup_face by (by rewrite turn_pos_axis).
    rewrite (turn_pos_branch axis _ _ _ H).
    rewrite turned_lookup_face by (by rewrite turn_pos_axis).
    destruct (d !! _); [|done]. simpl. f_equal. by apply turned_cubie_branch.
  - by rewrite !turned_lookup_rest.
Qed.

Lemma turn_pos_ccw (axis : Axis) (ed : Z) (pos : Pos) :
  ed <> 1 -> turn_pos axis ed pos = ccw_pos axis pos.
Proof.
  intros Hed%Z.eqb_neq. unfold turn_pos, rotated_pos. rewrite Hed.
  destruct pos as [[x y] z]. by destruct axis.
Qed.

Lemma turned_cubie_ccw (axis : Axis) (ed : Z) (pos : Pos) (cubie : Cubie) :
  ed <> 1 -> turned_cubie axis ed pos cubie = ccw_cubie axis pos cubie.
Proof.
  intros Hed. unfold turned_cubie. rewrite (turn_pos_ccw axis ed pos Hed).
  apply Z.eqb_neq in Hed. rewrite Hed.
  destruct pos as [[x y] z], cubie as [cx cy cz [xp xm yp ym zp zm]].
  destruct axis;
    match goal with
    | |- context [mapping_of ?a false] =>
        let m := eval vm_compute in (mapping_of a false) in
        change (mapping_of a false) with m
    end;
    destruct xp, xm, yp, ym, zp, zm; reflexivity.
Qed.

Lemma ccw_pos_axis (axis : Axis) (pos : Pos) :
  pos_get (ccw_pos axis pos) axis = pos_get pos axis.
Proof. destruct pos as [[x y] z]. by destruct axis. Qed.

Lemma ccw_pos_onto (axis : Axis) (sign : Z) (q : Pos) :
  pos_get q axis = sign ->
  exists pos, pos_get pos axis = sign /\ ccw_pos axis pos = q.
Proof.
  destruct q as [[x y] z]. intros Hq. destruct axis; simpl in Hq.
  - exists (x, - z, y). split; [done|]. simpl. f_equal. f_equal. lia.
  - exists (- z, y, x). split; [done|]. simpl. f_equal. lia.
  - exists (- y, x, z). split; [done|]. simpl. f_equal. f_equal. lia.
Qed.

(** C10.  [rotate_face] does not check its direction: for a valid face with
    sign [sign] and any integer direction [d] with [d * sign <> 1] (0 and 2
    among them), the call with animating false returns [True], appends
    [(face, d)] to the history, and applies the counter-clockwise effective
    rotation, the else-branches of the position and colour updates: a
    position off the face's layer keeps its cubie; a position [pos] of the
    layer hands its cubie, recoloured as [ccw_cubie] says, to
    [ccw_pos axis pos], and every position of the layer is such a
    target.  The stored mapping is therefore the one that
    [rotate_face(face, -sign)], whose effective direction is -1, stores. *)
Theorem unvalidated_direction (self : CubeModel) (face d : Z)
    (axis : Axis) (sign : Z) :
  animating self = false ->
  FACE_AXES face = Return (axis, sign) ->
  d * sign <> 1 ->
  (- sign) * sign = -1 /\
  rotate_face face d self
  = (Return true,
     MkCubeModel (cubies (snd (rotate_face face (- sign) self)))
                 (animating self) (animation_progress self)
                 (history self ++ [(face, d)])) /\
  (forall pos, pos_get pos axis <> sign ->
     cubies (rotate_face face d self).2 !! pos = cubies self !! pos) /\
  (forall pos, pos_get pos axis = sign ->
     pos_get (ccw_pos axis pos) axis = sign /\
     cubies (rotate_face face d self).2 !! ccw_pos axis pos
     = ccw_cubie axis pos <$> cubies self !! pos) /\
  (forall q, pos_get q axis = sign ->
     exists pos, pos_get pos axis = sign /\ ccw_pos axis pos = q).
Proof.
  intros Ha Hf Hd.
  assert (sign = 1 \/ sign = -1) as Hsign.
  { unfold FACE_AXES in Hf.
    destruct (assoc face FACE_AXES_items) as [[a s]|] eqn:Hassoc; [|done].
    injection Hf as -> ->. unfold FACE_AXES_items in Hassoc. simpl in Hassoc.
    repeat match type of Hassoc with
           | (if ?b then _ else _) = _ => destruct b
           end; simplify_eq; lia. }
  split; [lia|].
  rewrite !(rotate_face_turns self _ _ axis sign) by done.
  cbn [fst snd cubies].
  split; [|split; [|split]].
  - rewrite Ha. f_equal. f_equal. apply turned_branch.
    apply Z.eqb_neq in Hd. rewrite Hd. symmetry. apply Z.eqb_neq. lia.
  - intros pos Hpos. by apply turned_lookup_rest.
  - intros pos Hpos. split; [by rewrite ccw_pos_axis|].
    rewrite <- (turn_pos_ccw axis (d * sign) pos Hd).
    rewrite turned_lookup_face by done.
    destruct (cubies self !! pos) as [cubie|]; [|done].
    cbn [fmap option_fmap option_map]. f_equal. by apply turned_cubie_ccw.
  - intros q. apply ccw_pos_onto.
Qed.

Lemma unvalidated_direction_witness :
  animating CubeModel_init = false /\
  FACE_AXES 1 = Return (AZ, -1) /\
  2 * -1 <> 1 /\
  (- -1) * -1 = -1 /\
  rotate_face 1 2 CubeModel_init
  = (Return true,
     MkCubeModel (cubies (snd (rotate_face 1 (- -1) CubeModel_init)))
                 (animating CubeModel_init) (animation_progress CubeModel_init)
                 (history CubeModel_init ++ [(1, 2)])) /\
  (forall pos, pos_get pos AZ <> -1 ->
     cubies (rotate_face 1 2 CubeModel_init).2 !! pos
     = cubies CubeModel_init !! pos) /\
  (forall pos, pos_get pos AZ = -1 ->
     pos_get (ccw_pos AZ pos) AZ = -1 /\
     cubies (rotate_face 1 2 CubeModel_init).2 !! ccw_pos AZ pos
     = ccw_cubie AZ pos <$> cubies CubeModel_init !! pos) /\
  (forall q, pos_get q AZ = -1 ->
     exists pos, pos_get pos AZ = -1 /\ ccw_pos AZ pos = q).
Proof.
  split; [reflexivity|]. split; [reflexivity|]. split; [lia|].
  apply (unvalidated_direction CubeModel_init 1 2 AZ (-1));
    [reflexivity | reflexivity | lia].
Defined.

(** The corner a direction of 2 moves on the bottom face of the fresh cube:
    it goes where the else-branch sends it, not where a clockwise turn
    would. *)
Example direction_two_moves_corner :
  cubies (rotate_face 1 2 CubeModel_init).2 !! (1, -1, -1)
  = Some (MkCubie 1 (-1) (-1)
            (MkColors (Some BLUE) None None (Some RED) None (Some YELLOW))) /\
  cubies (rotate_face 1 2 CubeModel_init).2 !! (1, -1, -1)
  <> cubies (rotate_face 1 (-1) CubeModel_init).2 !! (1, -1, -1).
Proof. split; [by vm_compute|]. vm_compute. congruence. Qed.

Lemma lattice_init_positions (p : Pos) : lattice p = true <-> p ∈ init_positions.
Proof.
  destruct p as [[x y] z]. unfold lattice. split.
  - intros H. repeat (apply andb_true_iff in H as [H ?]).
    assert (x = -1 \/ x = 0 \/ x = 1) as Hx by lia.
    assert (y = -1 \/ y = 0 \/ y = 1) as Hy by lia.
    assert (z = -1 \/ z = 0 \/ z = 1) as Hz by lia.
    apply list_elem_of_In.
    destruct Hx as [->|[->| ->]], Hy as [->|[->| ->]], Hz as [->|[->| ->]];
      vm_compute; try tauto; discriminate.
  - intros H%list_elem_of_In. vm_compute in H.
    repeat (destruct H as [H|H]; [by injection H as <- <- <-|]). done.
Qed.

Lemma Cubie_init_lookup (p : Pos) :
  cubies CubeModel_init !! p
  = if lattice p then Some (fresh_cubie p) else None.
Proof.
  unfold CubeModel_init. cbn [cubies].
  set (step := fun (d : gmap Pos Cubie) '(x, y, z) => <[(x, y, z) := Cubie_init x y z]> d).
  assert (forall l (acc : gmap Pos Cubie),
    foldl step acc l !! p
    = if bool_decide (p ∈ l)
      then Some (fresh_cubie p)
      else acc !! p) as H.
  { induction l as [|[[x y] z] l IH] using rev_ind; intros acc; [done|].
    rewrite foldl_snoc. cbn [step].
    destruct (decide (p = (x, y, z))) as [->|Hne].
    - rewrite lookup_insert_eq. rewrite bool_decide_eq_true_2; [done|].
      apply elem_of_app. right. by apply list_elem_of_singleton.
    - rewrite lookup_insert_ne by done. rewrite IH.
      destruct (bool_decide (p ∈ l)) eqn:E.
      + apply bool_decide_eq_true in E. rewrite bool_decide_eq_true_2; [done|].
        apply elem_of_app. by left.
      + apply bool_decide_eq_false in E. rewrite bool_decide_eq_false_2; [done|].
        intros [?|?%list_elem_of_singleton]%elem_of_app; done. }
  rewrite H, lookup_empty.
  destruct (lattice p) eqn:E.
  - apply lattice_init_positions in E. by rewrite bool_decide_eq_true_2.
  - rewrite bool_decide_eq_false_2; [done|].
    intros Hin%lattice_init_positions. congruence.
Qed.

Lemma fresh_cubie_color (p : Pos) (k : FaceKey) :
  get_color (colors (fresh_cubie p)) k
  = if outward p k then Some (key_color k) else None.
Proof. destruct p as [[x y] z]. by destruct k. Qed.

Lemma lattice_spec (p : Pos) :
  lattice p = true <->
  let '(x, y, z) := p in
  -1 <= x <= 1 /\ -1 <= y <= 1 /\ -1 <= z <= 1 /\ ~ (x = 0 /\ y = 0 /\ z = 0).
Proof.
  destruct p as [[x y] z]. unfold lattice.
  rewrite !andb_true_iff, negb_true_iff, !Z.leb_le.
  destruct (Z.eqb_spec x 0), (Z.eqb_spec y 0), (Z.eqb_spec z 0); simpl;
    intuition (try lia; try discriminate).
Qed.

Lemma lattice_turn_pos (axis : Axis) (ed : Z) (p : Pos) :
  lattice (turn_pos axis ed p) = lattice p.
Proof.
  apply Bool.eq_iff_eq_true. rewrite !lattice_spec.
  destruct p as [[x y] z]. unfold turn_pos, rotated_pos.
  destruct axis, (ed =? 1); simpl; lia.
Qed.

Lemma cubie_exact_ok (p : Pos) (c : Cubie) : cubie_exact p c -> cubie_ok p c = true.
Proof.
  intros [Hp Hk]. apply cubie_ok_spec. split; [done|].
  intros k Hnone. destruct (outward p k) eqn:Ho; [|done].
  apply Hk in Ho. rewrite Hnone in Ho. by destruct Ho.
Qed.

Lemma turned_cubie_exact (axis : Axis) (ed : Z) (p : Pos) (c : Cubie) :
  cubie_exact p c -> cubie_exact (turn_pos axis ed p) (turned_cubie axis ed p c).
Proof.
  intros Hex. pose proof (cubie_exact_ok _ _ Hex) as Hok.
  destruct Hex as [_ Hk]. split; [apply turned_cubie_pos|].
  intros k'. rewrite <- (image_inverse axis (ed =? 1) k').
  rewrite turned_cubie_get, outward_turn by done. apply Hk.
Qed.

Lemma FACE_AXES_sign (face : Z) (axis : Axis) (sign : Z) :
  FACE_AXES face = Return (axis, sign) -> sign = 1 \/ sign = -1.
Proof.
  unfold FACE_AXES. intros Hf.
  destruct (assoc face FACE_AXES_items) as [[a s]|] eqn:Hassoc; [|done].
  injection Hf as -> ->. unfold FACE_AXES_items in Hassoc. simpl in Hassoc.
  repeat match type of Hassoc with
         | (if ?b then _ else _) = _ => destruct b
         end; simplify_eq; lia.
Qed.

Lemma center_turned (axis : Axis) (sign ed : Z) :
  sign = 1 \/ sign = -1 ->
  turn_pos axis ed (center_pos axis sign) = center_pos axis sign /\
  turned_cubie axis ed (center_pos axis sign) (fresh_cubie (center_pos axis sign))
  = fresh_cubie (center_pos axis sign).
Proof.
  intros Hsign.
  rewrite (turn_pos_branch axis ed (if ed =? 1 then 1 else -1))
    by (by destruct (ed =? 1)).
  rewrite (turned_cubie_branch axis ed (if ed =? 1 then 1 else -1))
    by (by destruct (ed =? 1)).
  by destruct Hsign as [-> | ->], axis, (ed =? 1).
Qed.

Lemma turned_inv (face : Z) (axis : Axis) (sign direction : Z) (d : gmap Pos Cubie) :
  FACE_AXES face = Return (axis, sign) ->
  cube_inv d -> cube_inv (turned axis sign direction d).
Proof.
  intros Hf (Hkeys & Hexact & Hcentres & Hknown).
  pose proof (FACE_AXES_sign _ _ _ Hf) as Hsign.
  split; [|split; [|split]].
  - intros q. destruct (decide (pos_get q axis = sign)) as [Hs|Hs].
    + rewrite <- (turn_pos_back axis (direction * sign) q) at 1.
      rewrite turned_lookup_face by (by rewrite turn_pos_axis).
      rewrite fmap_is_Some, Hkeys, <- (lattice_turn_pos axis (direction * sign)).
      by rewrite turn_pos_back.
    + by rewrite turned_lookup_rest.
  - intros q c' Hq. destruct (decide (pos_get q axis = sign)) as [Hs|Hs].
    + rewrite <- (turn_pos_back axis (direction * sign) q) in Hq |- *.
      rewrite turned_lookup_face in Hq by (by rewrite turn_pos_axis).
      destruct (d !! turn_pos axis (back (direction * sign)) q) as [c|] eqn:Hc;
        [|done].
      simpl in Hq. injection Hq as <-. by apply turned_cubie_exact, Hexact.
    + rewrite turned_lookup_rest in Hq by done. by apply Hexact.
  - intros face' axis' sign' Hf'.
    pose proof (FACE_AXES_sign _ _ _ Hf') as Hsign'.
    specialize (Hcentres face' axis' sign' Hf').
    destruct (decide (pos_get (center_pos axis' sign') axis = sign)) as [Hs|Hs].
    + assert (axis' = axis /\ sign' = sign) as [-> ->].
      { revert Hs. destruct Hsign as [-> | ->], Hsign' as [-> | ->], axis, axis';
          by vm_compute. }
      destruct (center_turned axis sign (direction * sign) Hsign) as [Hpos Hcub].
      rewrite <- Hpos at 1.
      rewrite turned_lookup_face by done. rewrite Hcentres. simpl. by rewrite Hcub.
    + by rewrite turned_lookup_rest.
  - intros q c' k' v Hq Hv. destruct (decide (pos_get q axis = sign)) as [Hs|Hs].
    + rewrite <- (turn_pos_back axis (direction * sign) q) in Hq.
      rewrite turned_lookup_face in Hq by (by rewrite turn_pos_axis).
      destruct (d !! turn_pos axis (back (direction * sign)) q) as [c|] eqn:Hc;
        [|done].
      simpl in Hq. injection Hq as <-.
      rewrite <- (image_inverse axis (direction * sign =? 1) k') in Hv.
      rewrite turned_cubie_get in Hv by (by apply cubie_exact_ok, Hexact).
      by eapply Hknown.
    + rewrite turned_lookup_rest in Hq by done. by eapply Hknown.
Qed.

Lemma rotate_face_cubies (self : CubeModel) (face direction : Z) :
  cubies (snd (rotate_face face direction self)) = cubies self \/
  exists axis sign,
    FACE_AXES face = Return (axis, sign) /\
    cubies (snd (rotate_face face direction self))
    = turned axis sign direction (cubies self).
Proof.
  unfold rotate_face. destruct (animating self); [by left|].
  destruct (FACE_AXES face) as [[axis sign]|e] eqn:Hf; simpl; [|by left].
  rewrite rotate_cubies_returns. right. by exists axis, sign.
Qed.

Lemma rotate_face_inv (self : CubeModel) (face direction : Z) :
  cube_inv (cubies self) -> cube_inv (cubies (snd (rotate_face face direction self))).
Proof.
  intros H.
  destruct (rotate_face_cubies self face direction) as [->|(axis & sign & Hf & ->)];
    [done|]. by eapply turned_inv.
Qed.

Lemma apply_moves_inv (moves : list (Z * Z)) (self : CubeModel) :
  cube_inv (cubies self) -> cube_inv (cubies (apply_moves moves self)).
Proof.
  revert self. induction moves as [|[face direction] moves IH]; intros self H;
    [done|].
  rewrite apply_moves_cons. by apply IH, rotate_face_inv.
Qed.

Lemma Cubie_init_exact (p : Pos) : cubie_exact p (fresh_cubie p).
Proof.
  destruct p as [[x y] z]. split; [done|].
  intros k. unfold outward.
  destruct k; simpl;
    match goal with |- context [Z.eqb ?a ?b] => destruct (Z.eqb_spec a b) end;
    split; (done || by intros [? ?]).
Qed.

Lemma CubeModel_init_inv : cube_inv (cubies CubeModel_init).
Proof.
  split; [|split; [|split]].
  - intros p. rewrite Cubie_init_lookup. destruct (lattice p); [by split|].
    split; [by intros [? ?]|done].
  - intros p c. rewrite Cubie_init_lookup. destruct (lattice p); [|done].
    intros [= <-]. apply Cubie_init_exact.
  - intros face axis sign Hf. rewrite Cubie_init_lookup.
    destruct (FACE_AXES_sign _ _ _ Hf) as [-> | ->], axis; by vm_compute.
  - intros p c k v. rewrite Cubie_init_lookup. destruct (lattice p); [|done].
    intros [= <-]. rewrite fresh_cubie_color.
    destruct (outward p k); [|done]. intros [= <-]. by destruct k.
Qed.

(** ** [is_solved] *)

Lemma is_center_spec (axis : Axis) (sign : Z) (p : Pos) :
  pos_get p axis = sign ->
  is_center axis p = true <-> p = center_pos axis sign.
Proof.
  destruct p as [[x y] z]. unfold is_center, center_pos. intros <-.
  destruct axis; simpl;
    repeat match goal with
           | |- context [Z.eqb ?a ?b] => destruct (Z.eqb_spec a b)
           end; simpl; split; try done; try (intros [= ? ?]; lia);
    try (intros _; f_equal; [f_equal|]; lia); congruence.
Qed.

Lemma option_Z_eqb_eq (a b : option Z) : option_Z_eqb a b = true <-> a = b.
Proof.
  destruct a, b; simpl; try (split; congruence).
  rewrite Z.eqb_eq. split; congruence.
Qed.

Section face_loop.
Variables (axis : Axis) (sign : Z).

Let step := fun '((on_face, cc) : list Cubie * option Z) '((pos, cubie) : Pos * Cubie) =>
  if pos_get pos axis =? sign then
    (on_face ++ [cubie],
     if is_center axis pos then get_color (colors cubie) (face_key_of axis sign)
     else cc)
  else (on_face, cc).

Lemma face_loop_members (l : list (Pos * Cubie)) (c : Cubie) :
  c ∈ (foldl step ([], None) l).1 <->
  exists p, (p, c) ∈ l /\ pos_get p axis = sign.
Proof.
  induction l as [|[p' c'] l IH] using rev_ind.
  - simpl. split; [by intros ?%elem_of_nil|]. by intros (p & ?%elem_of_nil & _).
  - rewrite foldl_snoc.
    destruct (foldl step ([], None) l) as [on cc] eqn:Hfold. simpl in IH.
    unfold step at 1. destruct (Z.eqb_spec (pos_get p' axis) sign) as [Hs|Hs]; simpl.
    + rewrite elem_of_app, IH, list_elem_of_singleton. split.
      * intros [(p & Hin & Hp)| ->].
        -- exists p. split; [|done]. apply elem_of_app. by left.
        -- exists p'. split; [|done]. apply elem_of_app. right.
           by apply list_elem_of_singleton.
      * intros (p & [Hin|Hin%list_elem_of_singleton]%elem_of_app & Hp).
        -- left. by exists p.
        -- right. congruence.
    + rewrite IH. split.
      * intros (p & Hin & Hp). exists p. split; [|done]. apply elem_of_app. by left.
      * intros (p & [Hin|Hin%list_elem_of_singleton]%elem_of_app & Hp).
        -- by exists p.
        -- congruence.
Qed.

Lemma face_loop_center (l : list (Pos * Cubie)) :
  NoDup l.*1 ->
  (forall c, (center_pos axis sign, c) ∈ l ->
             (foldl step ([], None) l).2
             = get_color (colors c) (face_key_of axis sign)) /\
  ((forall c, (center_pos axis sign, c) ∉ l) ->
   (foldl step ([], None) l).2 = None).
Proof.
  induction l as [|[p' c'] l IH] using rev_ind; intros Hnd.
  - split; [by intros c ?%elem_of_nil|done].
  - rewrite fmap_app in Hnd. apply NoDup_app in Hnd as (Hnd & Hfresh & _).
    specialize (IH Hnd) as [IHin IHout].
    rewrite foldl_snoc.
    destruct (foldl step ([], None) l) as [on cc] eqn:Hfold. simpl in IHin, IHout.
    assert (forall c, (p', c) ∉ l) as Hp'.
    { intros c Hin. apply (Hfresh p'); [|by left].
      apply list_elem_of_fmap. by exists (p', c). }
    unfold step.
    destruct (Z.eqb_spec (pos_get p' axis) sign) as [Hs|Hs]; simpl.
    + destruct (is_center axis p') eqn:Hc.
      * apply (is_center_spec axis sign p' Hs) in Hc. subst p'. split.
        -- intros c [Hin|Hin%list_elem_of_singleton]%elem_of_app;
             [by apply Hp' in Hin|congruence].
        -- intros Hno. exfalso. apply (Hno c'), elem_of_app. right.
           by apply list_elem_of_singleton.
      * assert (p' <> center_pos axis sign) as Hne.
        { intros Heq. apply (is_center_spec axis sign p' Hs) in Heq. congruence. }
        split.
        -- intros c [Hin|Hin%list_elem_of_singleton]%elem_of_app;
             [by apply IHin|congruence].
        -- intros Hno. apply IHout. intros c Hin. apply (Hno c), elem_of_app.
           by left.
    + assert (p' <> center_pos axis sign) as Hne.
      { intros ->. apply Hs. unfold center_pos. by destruct axis. }
      split.
      * intros c [Hin|Hin%list_elem_of_singleton]%elem_of_app;
          [by apply IHin|congruence].
      * intros Hno. apply IHout. intros c Hin. apply (Hno c), elem_of_app.
        by left.
Qed.
End face_loop.

Lemma face_uniform_spec (axis : Axis) (sign : Z) (d : gmap Pos Cubie) :
  face_uniform axis sign d = true <->
  forall p c, d !! p = Some c -> pos_get p axis = sign ->
              get_color (colors c) (face_key_of axis sign) = center_color axis sign d.
Proof.
  unfold face_uniform.
  pose proof (face_loop_members axis sign (map_to_list d)) as Hmem.
  pose proof (face_loop_center axis sign (map_to_list d)
                (NoDup_fst_map_to_list d)) as [Hin Hout].
  simpl in Hmem, Hin, Hout.
  destruct (foldl _ _ (map_to_list d)) as [on cc] eqn:Hfold.
  simpl in Hmem, Hin, Hout.
  assert (cc = center_color axis sign d) as ->.
  { unfold center_color. destruct (d !! center_pos axis sign) as [c0|] eqn:Hc.
    - apply Hin. by apply elem_of_map_to_list.
    - apply Hout. intros c Hc'%elem_of_map_to_list. congruence. }
  rewrite forallb_forall. split.
  - intros H p c Hp Hs. apply option_Z_eqb_eq, H, list_elem_of_In, Hmem.
    exists p. split; [by apply elem_of_map_to_list|done].
  - intros H c (p & Hp%elem_of_map_to_list & Hs)%list_elem_of_In%Hmem.
    apply option_Z_eqb_eq. by eapply H.
Qed.

Lemma is_solved_spec (self : CubeModel) :
  is_solved self = true <->
  forall face axis sign,
    FACE_AXES face = Return (axis, sign) ->
    forall p c, cubies self !! p = Some c -> pos_get p axis = sign ->
                get_color (colors c) (face_key_of axis sign)
                = center_color axis sign (cubies self).
Proof.
  unfold is_solved. rewrite forallb_forall. split.
  - intros H face axis sign Hf. apply face_uniform_spec.
    apply (H (face, (axis, sign))).
    unfold FACE_AXES in Hf.
    destruct (assoc face FACE_AXES_items) as [[a s]|] eqn:Hassoc; [|done].
    injection Hf as -> ->. revert Hassoc. unfold FACE_AXES_items. simpl.
    repeat match goal with
           | |- context [Z.eqb ?a ?b] => destruct (Z.eqb_spec a b); [subst|]
           end; intros [=]; subst; tauto.
  - intros H [face [axis sign]] Hin. apply face_uniform_spec.
    apply (H face). revert Hin. unfold FACE_AXES_items. simpl.
    intros [Hin|[Hin|[Hin|[Hin|[Hin|[Hin|[]]]]]]]; by injection Hin as <- <- <-.
Qed.

Lemma face_of_key (k : FaceKey) :
  exists face, FACE_AXES face = Return (face_to_axis k) /\
               face_key_of (face_to_axis k).1 (face_to_axis k).2 = k.
Proof.
  destruct k;
    [exists 2|exists 3|exists 4|exists 5|exists 0|exists 1]; by split.
Qed.

Lemma is_solved_cubies (self self' : CubeModel) :
  cubies self = cubies self' -> is_solved self = is_solved self'.
Proof. unfold is_solved. by intros ->. Qed.

Lemma solved_is_fresh (d : gmap Pos Cubie) (self : CubeModel) :
  cubies self = d -> cube_inv d ->
  is_solved self = true <-> d = cubies CubeModel_init.
Proof.
  intros Hd (Hkeys & Hexact & Hcentres & _). split.
  - intros Hsolved. apply map_eq. intros p. rewrite Cubie_init_lookup.
    destruct (lattice p) eqn:Hlat.
    + apply Hkeys in Hlat as [c Hc]. rewrite Hc. f_equal.
      destruct (Hexact p c Hc) as [Hpos Hk].
      apply cubie_ext.
      { rewrite Hpos. by destruct p as [[x y] z]. }
      intros k. rewrite fresh_cubie_color.
      destruct (outward p k) eqn:Ho.
      * destruct (face_of_key k) as (face & Hf & Hkey).
        destruct (face_to_axis k) as [axis sign] eqn:Hfa. simpl in Hkey.
        assert (pos_get p axis = sign) as Hs.
        { unfold outward in Ho. rewrite Hfa in Ho. by apply Z.eqb_eq. }
        rewrite is_solved_spec in Hsolved.
        rewrite Hd in Hsolved.
        rewrite <- Hkey at 1. rewrite (Hsolved face axis sign Hf p c Hc Hs).
        unfold center_color. rewrite (Hcentres face axis sign Hf).
        rewrite fresh_cubie_color, Hkey.
        assert (outward (center_pos axis sign) k = true) as ->; [|done].
        unfold outward. rewrite Hfa. unfold center_pos.
        destruct axis; simpl; apply Z.eqb_refl.
      * destruct (get_color (colors c) k) eqn:Hg; [|done].
        assert (is_Some (get_color (colors c) k)) as Hsome by (by rewrite Hg).
        apply Hk in Hsome. congruence.
    + destruct (d !! p) eqn:Hp; [|done].
      assert (is_Some (d !! p)) as Hsome by (by rewrite Hp).
      apply Hkeys in Hsome. congruence.
  - intros ->. rewrite (is_solved_cubies self CubeModel_init) by done.
    by vm_compute.
Qed.

(** ** [get_face_colors] *)

Lemma np_index_in_range (i : Z) : 0 <= i < 3 -> np_index i = Return (Z.to_nat i).
Proof.
  intros H. unfold np_index.
  destruct (Z.leb_spec 0 i), (Z.ltb_spec i 3); simpl; try lia. done.
Qed.

Lemma grid_set_returns (grid : list (list Z)) (row col v : Z) :
  0 <= row < 3 -> 0 <= col < 3 ->
  grid_set grid row col (Some v)
  = Return (alter (fun line => <[Z.to_nat col := v]> line) (Z.to_nat row) grid).
Proof.
  intros Hr Hc. unfold grid_set.
  by rewrite (np_index_in_range row Hr), (np_index_in_range col Hc).
Qed.

Lemma grid_3x3_alter (grid : list (list Z)) (r c : nat) (v : Z) :
  grid_3x3 grid -> grid_3x3 (alter (fun line => <[c := v]> line) r grid).
Proof.
  intros [Hlen Hrows]. split; [by rewrite length_alter|].
  intros line (i & Hi)%list_elem_of_lookup.
  destruct (decide (i = r)) as [->|Hne].
  - rewrite list_lookup_alter_eq in Hi.
    destruct (grid !! r) as [line0|] eqn:Hr; [|done].
    simpl in Hi. injection Hi as <-. rewrite length_insert.
    apply Hrows. by eapply list_elem_of_lookup_2.
  - rewrite list_lookup_alter_ne in Hi by done.
    apply Hrows. by eapply list_elem_of_lookup_2.
Qed.

Lemma cell_alter (grid : list (list Z)) (r c r' c' : nat) (v : Z) :
  grid_3x3 grid -> (r < 3)%nat -> (c < 3)%nat ->
  cell (alter (fun line => <[c := v]> line) r grid) r' c'
  = if decide (r' = r /\ c' = c) then Some v else cell grid r' c'.
Proof.
  intros [Hlen Hrows] Hr Hc. unfold cell.
  destruct (decide (r' = r)) as [->|Hne].
  - rewrite list_lookup_alter_eq.
    destruct (grid !! r) as [line|] eqn:Hline.
    2:{ apply lookup_ge_None in Hline. lia. }
    simpl. assert (length line = 3%nat) as Hl.
    { apply Hrows. by eapply list_elem_of_lookup_2. }
    destruct (decide (c' = c)) as [->|Hnc].
    + rewrite list_lookup_insert_eq by lia.
      by rewrite decide_True.
    + rewrite list_lookup_insert_ne by done.
      rewrite decide_False; [done|]. by intros [_ ?].
  - rewrite list_lookup_alter_ne by done.
    rewrite decide_False; [done|]. by intros [? _].
Qed.

Lemma cell_of_range (axis : Axis) (sign : Z) (p : Pos) :
  lattice p = true ->
  0 <= (cell_of axis sign p).1 < 3 /\ 0 <= (cell_of axis sign p).2 < 3.
Proof.
  intros Hl%lattice_spec. destruct p as [[x y] z].
  unfold cell_of, map_func, normalized.
  destruct axis, (sign >? 0); simpl; lia.
Qed.

Lemma cell_of_inj (axis : Axis) (sign : Z) (p p' : Pos) :
  pos_get p axis = sign -> pos_get p' axis = sign ->
  cell_of axis sign p = cell_of axis sign p' -> p = p'.
Proof.
  destruct p as [[x y] z], p' as [[x' y'] z'].
  unfold cell_of, map_func, normalized.
  destruct axis, (sign >? 0); simpl; intros <- Hs [= H1 H2];
    repeat match goal with |- (_, _) = (_, _) => f_equal end; lia.
Qed.

Lemma outward_face_key (axis : Axis) (sign : Z) (p : Pos) :
  sign = 1 \/ sign = -1 ->
  pos_get p axis = sign -> outward p (face_key_of axis sign) = true.
Proof.
  destruct p as [[x y] z]. unfold outward.
  intros [-> | ->]; destruct axis; simpl; intros ->; done.
Qed.

Section grid_loop.
Variables (axis : Axis) (sign : Z).

Let face_key := face_key_of axis sign.

Let step := fun (acc : outcome (list (list Z))) '((pos, cubie) : Pos * Cubie) =>
  obind acc (fun grid =>
    if pos_get pos axis =? sign then
      let normalized_pos :=
        (pos_get pos AX + 1, pos_get pos AY + 1, pos_get pos AZ + 1) in
      let '(row, col) :=
        map_func axis sign (axes_of axis).1 (axes_of axis).2 normalized_pos in
      grid_set grid row col (get_color (colors cubie) face_key)
    else Return grid).

Lemma grid_loop_spec (l : list (Pos * Cubie)) :
  NoDup l.*1 ->
  (forall p c, (p, c) ∈ l -> pos_get p axis = sign ->
               lattice p = true /\ is_Some (get_color (colors c) face_key)) ->
  exists grid,
    foldl step (Return np_zeros_3_3) l = Return grid /\
    grid_3x3 grid /\
    forall p c, (p, c) ∈ l -> pos_get p axis = sign ->
      cell grid (Z.to_nat (cell_of axis sign p).1) (Z.to_nat (cell_of axis sign p).2)
      = get_color (colors c) face_key.
Proof.
  induction l as [|[p' c'] l IH] using rev_ind; intros Hnd Hdraw.
  - exists np_zeros_3_3. split; [done|]. split.
    + split; [done|]. intros line Hline. unfold np_zeros_3_3 in Hline. simpl in Hline.
      repeat (apply elem_of_cons in Hline as [->|Hline]; [done|]).
      by apply elem_of_nil in Hline.
    + by intros p c ?%elem_of_nil.
  - rewrite fmap_app in Hnd. apply NoDup_app in Hnd as (Hnd & Hfresh & _).
    destruct (IH Hnd) as (grid & Hfold & Hshape & Hcells).
    { intros p c Hin. apply Hdraw, elem_of_app. by left. }
    rewrite foldl_snoc, Hfold. unfold step. simpl.
    destruct (Z.eqb_spec (pos_get p' axis) sign) as [Hs|Hs].
    + destruct (Hdraw p' c') as [Hlat [v Hv]]; [|done|].
      { apply elem_of_app. right. by apply list_elem_of_singleton. }
      pose proof (cell_of_range axis sign p' Hlat) as [Hrow Hcol].
      unfold cell_of, normalized in Hrow, Hcol.
      destruct (map_func axis sign _ _ _) as [row col] eqn:Hmf.
      simpl in Hrow, Hcol. fold face_key. rewrite Hv.
      rewrite grid_set_returns by done.
      eexists. split; [done|]. split; [by apply grid_3x3_alter|].
      intros p c Hin Hp.
      rewrite cell_alter by (done || lia).
      apply elem_of_app in Hin as [Hin|Hin%list_elem_of_singleton].
      * rewrite decide_False; [by apply Hcells|].
        intros [Hr Hc].
        assert (cell_of axis sign p = cell_of axis sign p') as Heq.
        { assert (lattice p = true) as Hlp.
          { eapply Hdraw; [|done]. apply elem_of_app. by left. }
          pose proof (cell_of_range axis sign p Hlp) as [? ?].
          unfold cell_of at 2. unfold normalized. rewrite Hmf.
          destruct (cell_of axis sign p) as [r1 c1]. simpl in *.
          f_equal; lia. }
        apply cell_of_inj in Heq; [|done..]. subst p'.
        apply (Hfresh p); [|by left].
        apply list_elem_of_fmap. by exists (p, c).
      * injection Hin as -> ->.
        unfold cell_of, normalized. rewrite Hmf. simpl.
        by rewrite decide_True.
    + eexists. split; [done|]. split; [done|].
      intros p c [Hin|Hin%list_elem_of_singleton]%elem_of_app Hp;
        [by apply Hcells|congruence].
Qed.
End grid_loop.

Lemma get_face_colors_spec (self : CubeModel) (face : Z) (axis : Axis) (sign : Z) :
  cube_inv (cubies self) ->
  FACE_AXES face = Return (axis, sign) ->
  exists grid,
    get_face_colors face self = Return grid /\
    grid_3x3 grid /\
    forall p c, cubies self !! p = Some c -> pos_get p axis = sign ->
      cell grid (Z.to_nat (cell_of axis sign p).1) (Z.to_nat (cell_of axis sign p).2)
      = get_color (colors c) (face_key_of axis sign).
Proof.
  intros (Hkeys & Hexact & _) Hf.
  pose proof (FACE_AXES_sign _ _ _ Hf) as Hsign.
  unfold get_face_colors, _get_coordinate_mapping. rewrite Hf. simpl.
  rewrite other_axes_pair. simpl.
  destruct (grid_loop_spec axis sign (map_to_list (cubies self)))
    as (grid & Hfold & Hshape & Hcells).
  - apply NoDup_fst_map_to_list.
  - intros p c Hin%elem_of_map_to_list Hp. split.
    + apply Hkeys. by rewrite Hin.
    + apply (Hexact p c Hin). by apply outward_face_key.
  - exists grid. split; [exact Hfold|]. split; [done|].
    intros p c Hin Hp. apply Hcells; [by apply elem_of_map_to_list|done].
Qed.

Lemma pos_of_cell_spec (axis : Axis) (sign r c : Z) :
  sign = 1 \/ sign = -1 -> 0 <= r < 3 -> 0 <= c < 3 ->
  lattice (pos_of_cell axis sign r c) = true /\
  pos_get (pos_of_cell axis sign r c) axis = sign /\
  cell_of axis sign (pos_of_cell axis sign r c) = (r, c).
Proof.
  intros Hsign Hr Hc. rewrite lattice_spec.
  unfold pos_of_cell, cell_of, map_func, normalized.
  destruct Hsign as [-> | ->], axis; simpl;
    (split; [lia|]); (split; [done|]); f_equal; lia.
Qed.

(** Every cell of the returned grid shows a cubie of the face. *)
Lemma get_face_colors_cells (self : CubeModel) (face : Z) (axis : Axis) (sign : Z)
    (grid : list (list Z)) (r c : nat) :
  cube_inv (cubies self) ->
  FACE_AXES face = Return (axis, sign) ->
  get_face_colors face self = Return grid ->
  (r < 3)%nat -> (c < 3)%nat ->
  exists p cubie,
    cubies self !! p = Some cubie /\ pos_get p axis = sign /\
    cell_of axis sign p = (Z.of_nat r, Z.of_nat c) /\
    cell grid r c = get_color (colors cubie) (face_key_of axis sign).
Proof.
  intros Hinv Hf Hgrid Hr Hc.
  destruct (get_face_colors_spec self face axis sign Hinv Hf)
    as (grid' & Hgrid' & _ & Hcells).
  rewrite Hgrid in Hgrid'. injection Hgrid' as <-.
  destruct (pos_of_cell_spec axis sign (Z.of_nat r) (Z.of_nat c))
    as (Hlat & Hs & Hcell); [by eapply FACE_AXES_sign|lia|lia|].
  destruct Hinv as (Hkeys & _ & _).
  apply Hkeys in Hlat as [cubie Hcubie].
  exists (pos_of_cell axis sign (Z.of_nat r) (Z.of_nat c)), cubie.
  split; [done|]. split; [done|]. split; [done|].
  rewrite <- (Hcells _ _ Hcubie Hs), Hcell. simpl. by rewrite !Nat2Z.id.
Qed.

Lemma center_cell (axis : Axis) (sign : Z) :
  sign = 1 \/ sign = -1 -> cell_of axis sign (center_pos axis sign) = (1, 1).
Proof. by intros [-> | ->]; destruct axis. Qed.

Lemma solved_iff_uniform (self : CubeModel) :
  cube_inv (cubies self) ->
  is_solved self = true <->
  forall face grid,
    get_face_colors face self = Return grid -> grid_uniform grid.
Proof.
  intros Hinv. rewrite is_solved_spec. split.
  - intros Hsolved face grid Hgrid.
    destruct (FACE_AXES face) as [[axis sign]|e] eqn:Hf.
    2:{ unfold get_face_colors in Hgrid. by rewrite Hf in Hgrid. }
    pose proof (FACE_AXES_sign _ _ _ Hf) as Hsign.
    pose proof Hinv as (Hkeys & Hexact & Hcentres & _).
    pose proof (Hcentres face axis sign Hf) as Hcentre.
    exists (key_color (face_key_of axis sign)). intros r c Hr Hc.
    destruct (get_face_colors_cells self face axis sign grid r c)
      as (p & cubie & Hp & Hs & _ & ->); [done..|].
    rewrite (Hsolved face axis sign Hf p cubie Hp Hs).
    unfold center_color. rewrite Hcentre, fresh_cubie_color.
    rewrite outward_face_key; [done..|].
    unfold center_pos. by destruct axis.
  - intros Huniform face axis sign Hf p cubie Hp Hs.
    pose proof (FACE_AXES_sign _ _ _ Hf) as Hsign.
    destruct (get_face_colors_spec self face axis sign Hinv Hf)
      as (grid & Hgrid & _ & Hcells).
    destruct (Huniform face grid Hgrid) as [v Hv].
    pose proof Hinv as (Hkeys & Hexact & Hcentres & _).
    pose proof (Hcentres face axis sign Hf) as Hcentre.
    unfold center_color. rewrite Hcentre.
    assert (pos_get (center_pos axis sign) axis = sign) as Hcs.
    { unfold center_pos. by destruct axis. }
    rewrite <- (Hcells _ _ Hp Hs), <- (Hcells _ _ Hcentre Hcs).
    assert (lattice p = true) as Hlat by (apply Hkeys; by rewrite Hp).
    pose proof (cell_of_range axis sign p Hlat) as [? ?].
    rewrite center_cell by done. simpl.
    rewrite !Hv by lia. done.
Qed.

(** ** Turns compose *)

Lemma turned_three (axis : Axis) (sign d d' : Z) (m : gmap Pos Cubie) :
  cube_ok m = true ->
  (d' * sign =? 1) = negb (d * sign =? 1) ->
  turned axis sign d (turned axis sign d (turned axis sign d m))
  = turned axis sign d' m.
Proof.
  intros Hok Hdir.
  rewrite <- (turned_four axis sign d m Hok) at 2. simpl.
  rewrite (turned_inverse axis sign d d'); [done| |done].
  by do 3 apply turned_ok.
Qed.

Lemma turned_opposite_commute (axis : Axis) (sign sign' d d' : Z)
    (m : gmap Pos Cubie) :
  sign <> sign' ->
  turned axis sign d (turned axis sign' d' m)
  = turned axis sign' d' (turned axis sign d m).
Proof.
  intros Hne. apply map_eq. intros q.
  destruct (decide (pos_get q axis = sign)) as [Hs|Hs].
  - rewrite (turned_lookup_rest axis sign' d' _ q) by congruence.
    rewrite <- (turn_pos_back axis (d * sign) q).
    rewrite !turned_lookup_face by (by rewrite turn_pos_axis).
    rewrite turned_lookup_rest; [done|]. rewrite turn_pos_axis. congruence.
  - rewrite (turned_lookup_rest axis sign d _ q) by done.
    destruct (decide (pos_get q axis = sign')) as [Hs'|Hs'].
    + rewrite <- (turn_pos_back axis (d' * sign') q).
      rewrite !turned_lookup_face by (by rewrite turn_pos_axis).
      rewrite turned_lookup_rest; [done|]. by rewrite turn_pos_axis.
    + by rewrite !turned_lookup_rest.
Qed.

(** ** [randomize] *)

Lemma random_choice_faces (g : rng) :
  random_choice faces g = (Return (drawn_move g).1, skip 1 g).
Proof.
  unfold random_choice, drawn_move, skip, faces. cbn [fst length].
  rewrite Nat.add_1_r.
  assert (draws g (consumed g) mod 6 < 6)%nat as Hlt
    by (apply Nat.mod_upper_bound; lia).
  revert Hlt. generalize (draws g (consumed g) mod 6)%nat. intros i Hi.
  do 6 (destruct i as [|i]; [done|]). lia.
Qed.

Lemma random_choice_directions (g : rng) :
  random_choice directions (skip 1 g) = (Return (drawn_move g).2, skip 2 g).
Proof.
  unfold random_choice, drawn_move, skip, directions. cbn [snd length draws consumed].
  replace (consumed g + 1)%nat with (S (consumed g)) by lia.
  replace (consumed g + 2)%nat with (S (S (consumed g))) by lia.
  assert (draws g (S (consumed g)) mod 2 < 2)%nat as Hlt
    by (apply Nat.mod_upper_bound; lia).
  revert Hlt. generalize (draws g (S (consumed g)) mod 2)%nat. intros i Hi.
  do 2 (destruct i as [|i]; [done|]). lia.
Qed.

Lemma drawn_move_valid (g : rng) : valid_move (drawn_move g).
Proof.
  unfold valid_move, drawn_move. simpl.
  assert (draws g (consumed g) mod 6 < 6)%nat by (apply Nat.mod_upper_bound; lia).
  split; [lia|]. destruct (_ =? _)%nat; auto.
Qed.

Lemma drawn_moves_valid (n : nat) (g : rng) : Forall valid_move (drawn_moves n g).
Proof.
  revert g. induction n as [|n IH]; intros g; constructor;
    [apply drawn_move_valid|apply IH].
Qed.

Lemma length_drawn_moves (n : nat) (g : rng) : length (drawn_moves n g) = n.
Proof. revert g. induction n as [|n IH]; intros g; simpl; [done|by rewrite IH]. Qed.

Lemma rotate_face_valid_returns (self : CubeModel) (m : Z * Z) :
  animating self = false -> valid_move m ->
  (rotate_face m.1 m.2 self).1 = Return true.
Proof.
  intros Ha [Hface _].
  destruct (FACE_AXES_valid _ Hface) as (axis & sign & Hf & _).
  by rewrite (rotate_face_turns self _ _ axis sign).
Qed.

Lemma randomize_loop_moves (n : nat) (g : rng) (self : CubeModel) :
  animating self = false ->
  randomize_loop n g self
  = (Return (), skip (2 * n) g, apply_moves (drawn_moves n g) self).
Proof.
  revert g self. induction n as [|n IH]; intros g self Ha.
  - simpl. unfold skip. rewrite Nat.add_0_r. by destruct g.
  - cbn [randomize_loop drawn_moves].
    rewrite random_choice_faces, random_choice_directions.
    pose proof (rotate_face_valid_returns self (drawn_move g) Ha
                  (drawn_move_valid g)) as Hret.
    destruct (drawn_move g) as [face direction] eqn:Hm. cbn [fst snd] in *.
    rewrite apply_moves_cons.
    destruct (rotate_face face direction self) as [r self'] eqn:Hrot.
    cbn [fst snd] in *. subst r.
    rewrite IH.
    + unfold skip. cbn [draws consumed]. do 2 f_equal. f_equal. lia.
    + pose proof (rotate_face_animating self face direction) as Hanim.
      rewrite Hrot in Hanim. simpl in Hanim. congruence.
Qed.

(** ** Drawing the cube *)

Lemma get_face_colors_cubies (m m' : CubeModel) (face : Z) :
  cubies m = cubies m' -> get_face_colors face m = get_face_colors face m'.
Proof. unfold get_face_colors. by intros ->. Qed.

Lemma get_face_colors_known (self : CubeModel) (face : Z) (grid : list (list Z))
    (r c : nat) :
  cube_inv (cubies self) ->
  get_face_colors face self = Return grid ->
  (r < 3)%nat -> (c < 3)%nat ->
  exists v, cell grid r c = Some v /\ 0 <= v <= 5.
Proof.
  intros Hinv Hgrid Hr Hc.
  destruct (FACE_AXES face) as [[axis sign]|e] eqn:Hf.
  2:{ unfold get_face_colors in Hgrid. by rewrite Hf in Hgrid. }
  destruct (get_face_colors_cells self face axis sign grid r c)
    as (p & cubie & Hp & Hs & _ & ->); [done..|].
  destruct Hinv as (_ & Hexact & _ & Hknown).
  destruct (Hexact p cubie Hp) as [_ Hk].
  destruct (proj2 (Hk (face_key_of axis sign))) as [v Hv].
  { apply outward_face_key; [by eapply FACE_AXES_sign|done]. }
  exists v. split; [done|]. by eapply Hknown.
Qed.

Lemma COLOR_MAP_known (v : Z) :
  0 <= v <= 5 -> exists rgb, COLOR_MAP v = Return rgb.
Proof.
  intros H.
  assert (v = 0 \/ v = 1 \/ v = 2 \/ v = 3 \/ v = 4 \/ v = 5)
    as [->|[->|[->|[->|[->| ->]]]]] by lia; by eexists.
Qed.

Lemma _draw_face_known (grid : list (list Z)) (canvas : list string) :
  (forall r c, (r < 3)%nat -> (c < 3)%nat ->
               exists v, cell grid r c = Some v /\ 0 <= v <= 5) ->
  exists fills,
    length fills = 9%nat /\
    FallbackGUI._draw_face grid (Return (), canvas) = (Return (), canvas ++ fills).
Proof.
  intros Hcells. unfold FallbackGUI._draw_face.
  assert (forall (cells : list (nat * nat)) canvas0,
    Forall (fun rc => (rc.1 < 3)%nat /\ (rc.2 < 3)%nat) cells ->
    exists fills, length fills = length cells /\
      foldl (fun acc '(row, col) =>
               match acc with
               | (Raise e, canvas) => (Raise e, canvas)
               | (Return _, canvas) =>
                   match grid !! row ≫= (fun line => line !! col) with
                   | None => (Raise IndexError, canvas)
                   | Some color_idx =>
                       match COLOR_MAP color_idx with
                       | Raise e => (Raise e, canvas)
                       | Return rgb => (Return (), canvas ++ [fill_color rgb])
                       end
                   end
               end) (Return (), canvas0) cells
      = (Return (), canvas0 ++ fills)) as Hloop.
  { induction cells as [|[row col] cells IH]; intros canvas0 Hall.
    - exists []. by rewrite app_nil_r.
    - inversion Hall as [|? ? [Hr Hc] Hrest]; subst. simpl in Hr, Hc.
      destruct (Hcells row col Hr Hc) as (v & Hv & Hrange).
      destruct (COLOR_MAP_known v Hrange) as [rgb Hrgb].
      destruct (IH (canvas0 ++ [fill_color rgb]) Hrest) as (fills & Hlen & Hfold).
      exists (fill_color rgb :: fills). split; [simpl; by rewrite Hlen|].
      cbn [foldl]. unfold cell in Hv. rewrite Hv, Hrgb, Hfold.
      by rewrite <- app_assoc. }
  destruct (Hloop (row ← seq 0 3; col ← seq 0 3; [(row, col)]) canvas)
    as (fills & Hlen & Hfold).
  { repeat constructor; simpl; lia. }
  exists fills. split; [exact Hlen|exact Hfold].
Qed.

Lemma face_grids_returns (m : CubeModel) :
  cube_inv (cubies m) ->
  exists grids,
    FallbackGUI.face_grids m = Return grids /\ length grids = 6%nat /\
    forall i grid, grids !! i = Some grid ->
                   get_face_colors (Z.of_nat i) m = Return grid.
Proof.
  intros Hinv. unfold FallbackGUI.face_grids, faces.
  destruct (get_face_colors_spec m 0 AZ 1 Hinv eq_refl) as (g0 & H0 & _).
  destruct (get_face_colors_spec m 1 AZ (-1) Hinv eq_refl) as (g1 & H1 & _).
  destruct (get_face_colors_spec m 2 AX 1 Hinv eq_refl) as (g2 & H2 & _).
  destruct (get_face_colors_spec m 3 AX (-1) Hinv eq_refl) as (g3 & H3 & _).
  destruct (get_face_colors_spec m 4 AY 1 Hinv eq_refl) as (g4 & H4 & _).
  destruct (get_face_colors_spec m 5 AY (-1) Hinv eq_refl) as (g5 & H5 & _).
  exists [g0; g1; g2; g3; g4; g5]. cbn [foldl obind].
  rewrite H0, H1, H2, H3, H4, H5. split; [done|]. split; [done|].
  intros i grid Hi.
  do 6 (destruct i as [|i]; [by injection Hi as <-|]). done.
Qed.

Lemma render_cube_returns (m : CubeModel) (canvas : list string) :
  cube_inv (cubies m) ->
  exists fills,
    FallbackGUI.render_cube (FallbackGUI.Mk m canvas)
    = (Return (), FallbackGUI.Mk m fills) /\
    length fills = 54%nat.
Proof.
  intros Hinv. unfold FallbackGUI.render_cube. cbn [FallbackGUI.cube_model].
  destruct (face_grids_returns m Hinv) as (grids & -> & Hlen & Hgrids).
  assert (forall (gs : list (list (list Z))) canvas0,
    (forall grid, grid ∈ gs ->
       forall r c, (r < 3)%nat -> (c < 3)%nat ->
                   exists v, cell grid r c = Some v /\ 0 <= v <= 5) ->
    exists fills, length fills = (9 * length gs)%nat /\
      foldl (fun drawn grid => FallbackGUI._draw_face grid drawn)
            (Return (), canvas0) gs
      = (Return (), canvas0 ++ fills)) as Hloop.
  { induction gs as [|grid gs IH]; intros canvas0 Hall.
    - exists []. by rewrite app_nil_r.
    - destruct (_draw_face_known grid canvas0) as (f1 & Hl1 & Hd1).
      { apply Hall. by left. }
      destruct (IH (canvas0 ++ f1)) as (f2 & Hl2 & Hd2).
      { intros g Hg. apply Hall. by right. }
      exists (f1 ++ f2). split; [rewrite length_app; simpl; lia|].
      cbn [foldl]. rewrite Hd1, Hd2. by rewrite <- app_assoc. }
  destruct (Hloop grids []) as (fills & Hl & Hfold).
  { intros grid (i & Hi)%list_elem_of_lookup r c Hr Hc.
    eapply get_face_colors_known; [done| |done..]. by apply Hgrids in Hi. }
  rewrite Hfold. exists fills. split; [done|]. rewrite Hl, Hlen. done.
Qed.

Lemma render_cube_cubies (m m' : CubeModel) (canvas canvas' : list string) :
  cubies m = cubies m' ->
  FallbackGUI.canvas (FallbackGUI.render_cube (FallbackGUI.Mk m canvas)).2
  = FallbackGUI.canvas (FallbackGUI.render_cube (FallbackGUI.Mk m' canvas')).2 /\
  (FallbackGUI.render_cube (FallbackGUI.Mk m canvas)).1
  = (FallbackGUI.render_cube (FallbackGUI.Mk m' canvas')).1.
Proof.
  intros Hc. unfold FallbackGUI.render_cube. cbn [FallbackGUI.cube_model].
  assert (FallbackGUI.face_grids m = FallbackGUI.face_grids m') as ->.
  { unfold FallbackGUI.face_grids.
    generalize (Return (@nil (list (list Z)))). induction faces as [|f l IH];
      intros acc; [done|].
    cbn [foldl]. rewrite (get_face_colors_cubies m m' f Hc). apply IH. }
  destruct (FallbackGUI.face_grids m') as [grids|e]; [|done].
  by destruct (foldl _ _ grids).
Qed.

Lemma play_valid (solution : list (Z * Z)) (m : CubeModel) :
  animating m = false -> Forall valid_move solution ->
  FallbackGUI.play solution m = (Return (), apply_moves solution m).
Proof.
  intros Ha Hvalid. revert m Ha. unfold FallbackGUI.play.
  induction Hvalid as [|[face direction] solution Hv _ IH]; intros m Ha; [done|].
  cbn [foldl]. rewrite apply_moves_cons.
  pose proof (rotate_face_valid_returns m (face, direction) Ha Hv) as Hret.
  pose proof (rotate_face_animating m face direction) as Hanim.
  cbn [fst snd] in Hret.
  destruct (rotate_face face direction m) as [r m'] eqn:Hrot.
  cbn [fst snd] in *. subst r. apply IH. congruence.
Qed.

(** * Further properties of the code *)

(** ** [rotate_face] *)

(** X1.  A successful [rotate_face] touches one layer only: with animating
    false and a valid face it returns [True], whatever the direction and the
    dict, and every position whose coordinate on the face's axis is not the
    face's sign holds the cubie it held before. *)
Theorem turn_leaves_other_layers (self : CubeModel) (face direction : Z)
    (axis : Axis) (sign : Z) :
  animating self = false ->
  FACE_AXES face = Return (axis, sign) ->
  (rotate_face face direction self).1 = Return true /\
  forall pos, pos_get pos axis <> sign ->
              cubies (rotate_face face direction self).2 !! pos
              = cubies self !! pos.
Proof.
  intros Ha Hf. rewrite (rotate_face_turns self _ _ axis sign) by done.
  split; [done|]. intros pos Hpos. simpl. by apply turned_lookup_rest.
Qed.

Lemma turn_leaves_other_layers_witness :
  (rotate_face 2 (-1) CubeModel_init).1 = Return true /\
  forall pos, pos_get pos AX <> 1 ->
              cubies (rotate_face 2 (-1) CubeModel_init).2 !! pos
              = cubies CubeModel_init !! pos.
Proof.
  apply (turn_leaves_other_layers CubeModel_init 2 (-1) AX 1); reflexivity.
Defined.

(** X2.  No sequence of [rotate_face] calls, whatever their arguments, adds
    or removes a cubie: the dict keeps the 26 keys [CubeModel.__init__]
    created. *)
Theorem keys_kept (moves : list (Z * Z)) :
  let d := cubies (apply_moves moves CubeModel_init) in
  (forall p, is_Some (d !! p) <-> p ∈ init_positions) /\ size d = 26%nat.
Proof.
  intros d.
  destruct (apply_moves_inv moves CubeModel_init CubeModel_init_inv) as (Hkeys & _).
  fold d in Hkeys.
  assert (forall p, is_Some (d !! p) <-> p ∈ init_positions) as Hd.
  { intros p. by rewrite Hkeys, lattice_init_positions. }
  split; [done|].
  assert (dom d = dom (cubies CubeModel_init)) as Hdom.
  { apply set_eq. intros p. rewrite !elem_of_dom, Hd, <- lattice_init_positions.
    rewrite Cubie_init_lookup. destruct (lattice p); [by split|].
    split; [done|by intros [? ?]]. }
  rewrite <- size_dom, Hdom, size_dom. by vm_compute.
Qed.

Lemma flag_count (a : option Z) (b : bool) :
  (is_Some a <-> b = true) ->
  length (omap id [a]) = if b then 1%nat else 0%nat.
Proof.
  destruct a as [v|], b; simpl; intros [H1 H2]; try done.
  - assert (is_Some (Some v)) as Hs by (by exists v). by apply H1 in Hs.
  - by destruct (H2 eq_refl).
Qed.

Lemma pair_count (a b : option Z) (x : Z) :
  -1 <= x <= 1 ->
  (is_Some a <-> (x =? 1) = true) -> (is_Some b <-> (x =? -1) = true) ->
  length (omap id [a; b]) = if x =? 0 then 0%nat else 1%nat.
Proof.
  intros Hx Ha Hb.
  change [a; b] with ([a] ++ [b]).
  rewrite omap_app, length_app, (flag_count a _ Ha), (flag_count b _ Hb).
  destruct (Z.eqb_spec x 1), (Z.eqb_spec x (-1)), (Z.eqb_spec x 0); simpl; lia.
Qed.

(** X3.  In every state the cube reaches, a cubie records the position it is
    stored under and has colours exactly on its outward labels: three for a
    corner, two for an edge, one for a face centre. *)
Theorem cubie_kinds (moves : list (Z * Z)) (p : Pos) (c : Cubie) :
  cubies (apply_moves moves CubeModel_init) !! p = Some c ->
  (cubie_x c, cubie_y c, cubie_z c) = p /\
  (forall k, is_Some (get_color (colors c) k) <-> outward p k = true) /\
  length (facelets_of (colors c)) = nonzero_coordinates p.
Proof.
  intros Hc.
  destruct (apply_moves_inv moves CubeModel_init CubeModel_init_inv)
    as (Hkeys & Hexact & _).
  destruct (Hexact p c Hc) as [Hpos Hk]. split; [done|]. split; [done|].
  assert (lattice p = true) as Hlat by (apply Hkeys; by rewrite Hc).
  apply lattice_spec in Hlat.
  pose proof (Hk Xp) as H1. pose proof (Hk Xm) as H2.
  pose proof (Hk Yp) as H3. pose proof (Hk Ym) as H4.
  pose proof (Hk Zp) as H5. pose proof (Hk Zm) as H6.
  destruct p as [[x y] z], (colors c) as [o1 o2 o3 o4 o5 o6].
  unfold outward in *. simpl in H1, H2, H3, H4, H5, H6.
  unfold facelets_of, nonzero_coordinates.
  cbn [pos_get c_xp c_xm c_yp c_ym c_zp c_zm].
  change [o1; o2; o3; o4; o5; o6] with ([o1; o2] ++ [o3; o4] ++ [o5; o6]).
  rewrite !omap_app, !length_app.
  rewrite (pair_count o1 o2 x), (pair_count o3 o4 y), (pair_count o5 o6 z)
    by (done || lia).
  rewrite !filter_cons, filter_nil.
  destruct (Z.eqb_spec x 0), (Z.eqb_spec y 0), (Z.eqb_spec z 0);
    repeat case_decide; simpl; congruence.
Qed.

Lemma cubie_kinds_witness :
  let c := MkCubie 1 1 1 (MkColors (Some GREEN) None (Some RED) None
                                   (Some WHITE) None) in
  (cubie_x c, cubie_y c, cubie_z c) = (1, 1, 1) /\
  (forall k, is_Some (get_color (colors c) k) <-> outward (1, 1, 1) k = true) /\
  length (facelets_of (colors c)) = nonzero_coordinates (1, 1, 1).
Proof.
  intros c. apply (cubie_kinds [(0, 1)] (1, 1, 1) c). by vm_compute.
Defined.

(** X4.  The six face centres never move and never change: in every state
    the cube reaches, the centre position of each face holds the cubie
    [CubeModel.__init__] put there, so the centre colour [is_solved] reads is
    always the face's own colour. *)
Theorem centres_fixed (moves : list (Z * Z)) (face : Z) (axis : Axis) (sign : Z) :
  FACE_AXES face = Return (axis, sign) ->
  let d := cubies (apply_moves moves CubeModel_init) in
  d !! center_pos axis sign = Some (fresh_cubie (center_pos axis sign)) /\
  center_color axis sign d = Some (key_color (face_key_of axis sign)).
Proof.
  intros Hf d.
  destruct (apply_moves_inv moves CubeModel_init CubeModel_init_inv)
    as (_ & _ & Hcentres & _).
  pose proof (Hcentres face axis sign Hf) as Hc. fold d in Hc.
  split; [done|]. unfold center_color. rewrite Hc, fresh_cubie_color.
  rewrite outward_face_key; [done|by eapply FACE_AXES_sign|].
  unfold center_pos. by destruct axis.
Qed.

Lemma centres_fixed_witness :
  let d := cubies (apply_moves [(4, 1); (0, -1); (4, 2)] CubeModel_init) in
  d !! center_pos AY 1 = Some (fresh_cubie (center_pos AY 1)) /\
  center_color AY 1 d = Some (key_color (face_key_of AY 1)).
Proof.
  apply (centres_fixed [(4, 1); (0, -1); (4, 2)] 4 AY 1). reflexivity.
Defined.

(** ** [is_solved] *)

Lemma face_uniform_items_spec (axis : Axis) (sign : Z) (d : gmap Pos Cubie)
    (items : list (Pos * Cubie)) :
  items ≡ₚ map_to_list d ->
  face_uniform_items axis sign items = true <->
  forall p c, d !! p = Some c -> pos_get p axis = sign ->
              get_color (colors c) (face_key_of axis sign) = center_color axis sign d.
Proof.
  intros Hperm.
  assert (forall p c, (p, c) ∈ items <-> d !! p = Some c) as Hitems.
  { intros p c. by rewrite Hperm, elem_of_map_to_list. }
  assert (NoDup items.*1) as Hnd.
  { rewrite Hperm. apply NoDup_fst_map_to_list. }
  unfold face_uniform_items.
  pose proof (face_loop_members axis sign items) as Hmem.
  pose proof (face_loop_center axis sign items Hnd) as [Hin Hout].
  simpl in Hmem, Hin, Hout.
  destruct (foldl _ _ items) as [on cc] eqn:Hfold.
  simpl in Hmem, Hin, Hout.
  assert (cc = center_color axis sign d) as ->.
  { unfold center_color. destruct (d !! center_pos axis sign) as [c0|] eqn:Hc.
    - apply Hin. by apply Hitems.
    - apply Hout. intros c Hc'%Hitems. congruence. }
  rewrite forallb_forall. split.
  - intros H p c Hp Hs. apply option_Z_eqb_eq, H, list_elem_of_In, Hmem.
    exists p. split; [by apply Hitems|done].
  - intros H c (p & Hp%Hitems & Hs)%list_elem_of_In%Hmem.
    apply option_Z_eqb_eq. by eapply H.
Qed.

Lemma face_uniform_items_order (axis : Axis) (sign : Z) (d : gmap Pos Cubie)
    (items : list (Pos * Cubie)) :
  items ≡ₚ map_to_list d ->
  face_uniform_items axis sign items = face_uniform axis sign d.
Proof.
  intros Hperm. apply eq_true_iff_eq.
  rewrite (face_uniform_items_spec axis sign d items Hperm).
  by rewrite face_uniform_spec.
Qed.

(** [is_solved] is [is_solved_items] over the enumeration the model uses. *)
Lemma is_solved_map_to_list (self : CubeModel) :
  is_solved self = is_solved_items (map_to_list (cubies self)).
Proof. reflexivity. Qed.

Lemma is_solved_items_order (self : CubeModel) (items : list (Pos * Cubie)) :
  items ≡ₚ map_to_list (cubies self) ->
  is_solved_items items = is_solved self.
Proof.
  intros Hperm. unfold is_solved_items, is_solved, FACE_AXES_items.
  cbn [forallb].
  by rewrite !(fun axis sign =>
                 face_uniform_items_order axis sign (cubies self) items Hperm).
Qed.

(** X5.  [is_solved] returns [True] exactly when, for each of the six faces,
    every cubie on the face has on the face's label the colour the cubie at
    the face's centre position has there ([None] when no cubie is stored at
    the centre).  This holds for any dict, and for any order in which
    [self.cubies.items()] enumerates it: over every enumeration [items] of
    the dict the loops return what [is_solved] returns. *)
Theorem is_solved_characterised (self : CubeModel) (items : list (Pos * Cubie)) :
  items ≡ₚ map_to_list (cubies self) ->
  is_solved_items items = is_solved self /\
  (is_solved_items items = true <->
   forall face axis sign,
     FACE_AXES face = Return (axis, sign) ->
     forall p c, cubies self !! p = Some c -> pos_get p axis = sign ->
                 get_color (colors c) (face_key_of axis sign)
                 = center_color axis sign (cubies self)).
Proof.
  intros Hperm. split; [by apply is_solved_items_order|].
  rewrite (is_solved_items_order self items Hperm). apply is_solved_spec.
Qed.

Lemma is_solved_characterised_witness :
  let self := (rotate_face 2 1 CubeModel_init).2 in
  let items := reverse (map_to_list (cubies self)) in
  items ≡ₚ map_to_list (cubies self) /\
  is_solved_items items = is_solved self /\
  (is_solved_items items = true <->
   forall face axis sign,
     FACE_AXES face = Return (axis, sign) ->
     forall p c, cubies self !! p = Some c -> pos_get p axis = sign ->
                 get_color (colors c) (face_key_of axis sign)
                 = center_color axis sign (cubies self)).
Proof.
  intros self items.
  assert (items ≡ₚ map_to_list (cubies self)) as Hperm
    by apply reverse_Permutation.
  split; [exact Hperm|]. exact (is_solved_characterised self items Hperm).
Defined.

(** X6.  On every cube reached from the fresh one by [rotate_face] calls,
    [is_solved] is exact: it returns [True] if and only if the
    position-to-cubie mapping is that of the fresh cube. *)
Theorem is_solved_exact (moves : list (Z * Z)) :
  let self := apply_moves moves CubeModel_init in
  is_solved self = true <-> cubies self = cubies CubeModel_init.
Proof.
  intros self. apply solved_is_fresh; [done|].
  apply apply_moves_inv, CubeModel_init_inv.
Qed.

(** ** Turns compose *)

(** X7.  Three quarter turns of a face are one quarter turn the other way:
    on a non-animating cube satisfying the data-model invariant, three
    [rotate_face(face, d)] calls leave the same position-to-cubie mapping as
    one [rotate_face(face, -d)]. *)
Theorem three_turns_are_one_back (self : CubeModel) (face d : Z) :
  animating self = false ->
  cube_ok (cubies self) = true ->
  0 <= face <= 5 ->
  d = 1 \/ d = -1 ->
  cubies (apply_moves (replicate 3 (face, d)) self)
  = cubies (apply_moves [(face, - d)] self).
Proof.
  intros Ha Hok Hface Hd.
  destruct (FACE_AXES_valid face Hface) as (axis & sign & Hf & Hsign).
  change (replicate 3 (face, d)) with (pair face <$> replicate 3 d).
  change [(face, - d)] with (pair face <$> [- d]).
  rewrite !(apply_moves_one_face _ _ _ axis sign) by done. simpl.
  apply turned_three; [done|].
  by destruct Hsign as [-> | ->], Hd as [-> | ->].
Qed.

Lemma three_turns_are_one_back_witness :
  cubies (apply_moves (replicate 3 (5, 1)) CubeModel_init)
  = cubies (apply_moves [(5, - 1)] CubeModel_init).
Proof.
  apply (three_turns_are_one_back CubeModel_init 5 1);
    [reflexivity | vm_compute; reflexivity | lia | left; reflexivity].
Defined.

(** X8.  Turns of two opposite faces commute: for two faces on the same axis
    with opposite signs, any directions and any dict, the two [rotate_face]
    calls leave the same position-to-cubie mapping in either order. *)
Theorem opposite_faces_commute (self : CubeModel) (face face' d d' : Z)
    (axis : Axis) (sign : Z) :
  animating self = false ->
  FACE_AXES face = Return (axis, sign) ->
  FACE_AXES face' = Return (axis, - sign) ->
  cubies (apply_moves [(face, d); (face', d')] self)
  = cubies (apply_moves [(face', d'); (face, d)] self).
Proof.
  intros Ha Hf Hf'.
  pose proof (FACE_AXES_sign _ _ _ Hf) as Hsign.
  rewrite !apply_moves_cons.
  rewrite !(rotate_face_turns self _ _ axis _) by done. cbn [snd].
  rewrite (rotate_face_turns _ face' d' axis (- sign)) by done.
  rewrite (rotate_face_turns _ face d axis sign) by done. simpl.
  symmetry. apply turned_opposite_commute. lia.
Qed.

Lemma opposite_faces_commute_witness :
  cubies (apply_moves [(2, 1); (3, 1)] CubeModel_init)
  = cubies (apply_moves [(3, 1); (2, 1)] CubeModel_init).
Proof.
  apply (opposite_faces_commute CubeModel_init 2 3 1 1 AX 1); reflexivity.
Defined.

(** ** [randomize] *)

(** X9.  With animating false, [randomize(n)] never raises and returns
    [True]; it consumes exactly two draws per move and is exactly the
    [rotate_face] calls for the moves drawn: as many as [n] (none for a
    negative [n]), each on a face 0..5 with direction +1 or -1. *)
Theorem randomize_is_drawn_moves (num_moves : Z) (g : rng) (self : CubeModel) :
  animating self = false ->
  let moves := drawn_moves (Z.to_nat num_moves) g in
  randomize num_moves g self
  = (Return true, skip (2 * Z.to_nat num_moves) g, apply_moves moves self) /\
  length moves = Z.to_nat num_moves /\
  Forall valid_move moves /\
  history (apply_moves moves self) = history self ++ moves.
Proof.
  intros Ha moves. unfold randomize. rewrite Ha, randomize_loop_moves by done.
  split; [done|]. split; [apply length_drawn_moves|].
  split; [apply drawn_moves_valid|].
  assert (forall (l : list (Z * Z)) s,
            animating s = false -> Forall valid_move l ->
            history (apply_moves l s) = history s ++ l) as Hh.
  { intros l s Hs Hl. revert s Hs.
    induction Hl as [|[f d] l [Hf _] _ IH]; intros s Hs.
    - by rewrite app_nil_r.
    - destruct (FACE_AXES_valid f Hf) as (axis & sign & Hfa & _).
      rewrite apply_moves_cons, (rotate_face_turns s _ _ axis sign) by done.
      cbn [snd]. rewrite IH by done. simpl. by rewrite <- app_assoc. }
  apply Hh; [done|apply drawn_moves_valid].
Qed.

Lemma randomize_is_drawn_moves_witness :
  let g := MkRng (fun n => (7 * n + 3)%nat) 0 in
  let moves := drawn_moves (Z.to_nat 4) g in
  randomize 4 g CubeModel_init
  = (Return true, skip (2 * Z.to_nat 4) g, apply_moves moves CubeModel_init) /\
  length moves = Z.to_nat 4 /\
  Forall valid_move moves /\
  history (apply_moves moves CubeModel_init) = history CubeModel_init ++ moves.
Proof.
  intros g. apply (randomize_is_drawn_moves 4 g CubeModel_init). reflexivity.
Defined.

(** X10.  [randomize] with a zero or negative move count is a successful
    no-op: it returns [True], draws nothing and leaves the cube, history
    included, as it was. *)
Theorem randomize_no_moves (num_moves : Z) (g : rng) (self : CubeModel) :
  animating self = false ->
  num_moves <= 0 ->
  randomize num_moves g self = (Return true, g, self).
Proof.
  intros Ha Hn. unfold randomize. rewrite Ha.
  replace (Z.to_nat num_moves) with 0%nat by lia. done.
Qed.

Lemma randomize_no_moves_witness :
  randomize (-3) (MkRng (fun n => n) 0) CubeModel_init
  = (Return true, MkRng (fun n => n) 0, CubeModel_init).
Proof.
  apply (randomize_no_moves (-3) (MkRng (fun n => n) 0) CubeModel_init);
    [reflexivity | lia].
Defined.

(** X11.  A fresh cube scrambled by [randomize] is brought back by its own
    [get_solution]: applying the returned moves with [rotate_face] restores
    the position-to-cubie mapping of the fresh cube, and [is_solved] is
    [True] again. *)
Theorem randomize_then_solution (num_moves : Z) (g : rng) :
  let scrambled := (randomize num_moves g CubeModel_init).2 in
  let solved := apply_moves (get_solution scrambled) scrambled in
  cubies solved = cubies CubeModel_init /\ is_solved solved = true.
Proof.
  intros scrambled solved.
  assert (scrambled
          = apply_moves (drawn_moves (Z.to_nat num_moves) g) CubeModel_init) as Hs.
  { unfold scrambled, randomize. cbn [animating CubeModel_init].
    by rewrite randomize_loop_moves. }
  pose proof (drawn_moves_valid (Z.to_nat num_moves) g) as Hvalid.
  assert (cubies solved = cubies CubeModel_init) as Hc.
  { unfold solved. rewrite get_solution_reversed, Hs.
    destruct (apply_moves_valid _ CubeModel_init Hvalid eq_refl CubeModel_init_ok)
      as (_ & _ & ->).
    by apply undo_moves. }
  split; [done|].
  rewrite (is_solved_cubies solved CubeModel_init) by done. by vm_compute.
Qed.

(** ** [get_face_colors] *)

(** X12.  On a cube whose cubies are those of a state reached from the fresh
    cube, [get_face_colors] of a valid face does not raise and returns three
    rows of three cells; the cell that [_get_coordinate_mapping] assigns to a
    position of the face holds the colour its cubie shows on the face's
    label, and every cell is the cell of such a position. *)
Theorem get_face_colors_grid (self : CubeModel) (moves : list (Z * Z))
    (face : Z) (axis : Axis) (sign : Z) :
  cubies self = cubies (apply_moves moves CubeModel_init) ->
  FACE_AXES face = Return (axis, sign) ->
  exists grid,
    get_face_colors face self = Return grid /\
    grid_3x3 grid /\
    (forall p c, cubies self !! p = Some c -> pos_get p axis = sign ->
       cell grid (Z.to_nat (cell_of axis sign p).1) (Z.to_nat (cell_of axis sign p).2)
       = get_color (colors c) (face_key_of axis sign)) /\
    (forall r c, (r < 3)%nat -> (c < 3)%nat ->
       exists p cubie,
         cubies self !! p = Some cubie /\ pos_get p axis = sign /\
         cell_of axis sign p = (Z.of_nat r, Z.of_nat c) /\
         cell grid r c = get_color (colors cubie) (face_key_of axis sign)).
Proof.
  intros Hc Hf.
  assert (cube_inv (cubies self)) as Hinv.
  { rewrite Hc. apply apply_moves_inv, CubeModel_init_inv. }
  destruct (get_face_colors_spec self face axis sign Hinv Hf)
    as (grid & Hgrid & Hshape & Hcells).
  exists grid. split; [done|]. split; [done|]. split; [done|].
  intros r c Hr Hcol. by apply (get_face_colors_cells self face).
Qed.

Lemma get_face_colors_grid_witness :
  let self := apply_moves [(0, 1); (2, 1)] CubeModel_init in
  exists grid,
    get_face_colors 4 self = Return grid /\
    grid_3x3 grid /\
    (forall p c, cubies self !! p = Some c -> pos_get p AY = 1 ->
       cell grid (Z.to_nat (cell_of AY 1 p).1) (Z.to_nat (cell_of AY 1 p).2)
       = get_color (colors c) (face_key_of AY 1)) /\
    (forall r c, (r < 3)%nat -> (c < 3)%nat ->
       exists p cubie,
         cubies self !! p = Some cubie /\ pos_get p AY = 1 /\
         cell_of AY 1 p = (Z.of_nat r, Z.of_nat c) /\
         cell grid r c = get_color (colors cubie) (face_key_of AY 1)).
Proof.
  intros self.
  apply (get_face_colors_grid self [(0, 1); (2, 1)] 4 AY 1); reflexivity.
Defined.

(** X13.  The centre cell of a face never changes: on a cube whose cubies
    are those of a state reached from the fresh cube, the cell [1][1] of
    [get_face_colors(face)] is the colour [Cubie.__init__] gives the face's
    label. *)
Theorem centre_cell_fixed (self : CubeModel) (moves : list (Z * Z))
    (face : Z) (axis : Axis) (sign : Z) :
  cubies self = cubies (apply_moves moves CubeModel_init) ->
  FACE_AXES face = Return (axis, sign) ->
  exists grid,
    get_face_colors face self = Return grid /\
    cell grid 1 1 = Some (key_color (face_key_of axis sign)).
Proof.
  intros Hc Hf.
  assert (cube_inv (cubies self)) as Hinv.
  { rewrite Hc. apply apply_moves_inv, CubeModel_init_inv. }
  pose proof (FACE_AXES_sign _ _ _ Hf) as Hsign.
  destruct (get_face_colors_spec self face axis sign Hinv Hf)
    as (grid & Hgrid & _ & Hcells).
  exists grid. split; [done|].
  destruct Hinv as (_ & _ & Hcentres & _).
  pose proof (Hcentres face axis sign Hf) as Hcentre.
  assert (pos_get (center_pos axis sign) axis = sign) as Hcs.
  { unfold center_pos. by destruct axis. }
  pose proof (Hcells _ _ Hcentre Hcs) as Hcell.
  rewrite center_cell in Hcell by done. cbn [fst snd] in Hcell.
  change (Z.to_nat 1) with 1%nat in Hcell. rewrite Hcell.
  rewrite fresh_cubie_color, outward_face_key; done.
Qed.

Lemma centre_cell_fixed_witness :
  exists grid,
    get_face_colors 3 (apply_moves [(3, 1); (0, 1); (3, -1)] CubeModel_init)
    = Return grid /\
    cell grid 1 1 = Some (key_color (face_key_of AX (-1))).
Proof.
  apply (centre_cell_fixed _ [(3, 1); (0, 1); (3, -1)] 3 AX (-1)); reflexivity.
Defined.

(** X14.  The two queries agree: on a cube whose cubies are those of a state
    reached from the fresh cube, [is_solved] is [True] exactly when every
    grid [get_face_colors] returns has the same colour in all nine cells. *)
Theorem solved_iff_grids_uniform (self : CubeModel) (moves : list (Z * Z)) :
  cubies self = cubies (apply_moves moves CubeModel_init) ->
  is_solved self = true <->
  forall face grid, get_face_colors face self = Return grid -> grid_uniform grid.
Proof.
  intros Hc. apply solved_iff_uniform.
  rewrite Hc. apply apply_moves_inv, CubeModel_init_inv.
Qed.

Lemma solved_iff_grids_uniform_witness :
  let self := apply_moves [(1, 1); (1, -1)] CubeModel_init in
  is_solved self = true <->
  forall face grid, get_face_colors face self = Return grid -> grid_uniform grid.
Proof.
  intros self. apply (solved_iff_grids_uniform self [(1, 1); (1, -1)]).
  reflexivity.
Defined.

(** X15.  [get_face_colors] of a face outside 0..5 raises the [KeyError] of
    the [FACE_AXES] lookup, whatever the cube. *)
Theorem get_face_colors_invalid_face (self : CubeModel) (face : Z) :
  ~ (0 <= face <= 5) -> get_face_colors face self = Raise KeyError.
Proof.
  intros Hface. unfold get_face_colors. by rewrite (FACE_AXES_invalid face Hface).
Qed.

Lemma get_face_colors_invalid_face_witness :
  get_face_colors (-1) CubeModel_init = Raise KeyError.
Proof. apply (get_face_colors_invalid_face CubeModel_init (-1)). lia. Defined.

(** ** The fallback GUI *)

Lemma reachable_inv (self : CubeModel) (moves : list (Z * Z)) :
  cubies self = cubies (apply_moves moves CubeModel_init) ->
  cube_inv (cubies self).
Proof. intros ->. apply apply_moves_inv, CubeModel_init_inv. Qed.

(** X16.  Drawing never fails on a cube the program can reach: when the
    cubies are those of a state reached from the fresh cube, [render_cube]
    raises nothing (all six [get_face_colors] calls return and every cell is
    a key of [COLOR_MAP]) and leaves 54 rectangles on the canvas. *)
Theorem render_cube_never_raises (m : CubeModel) (canvas : list string)
    (moves : list (Z * Z)) :
  cubies m = cubies (apply_moves moves CubeModel_init) ->
  exists fills,
    FallbackGUI.render_cube (FallbackGUI.Mk m canvas)
    = (Return (), FallbackGUI.Mk m fills) /\
    length fills = 54%nat.
Proof.
  intros Hc. apply render_cube_returns. by eapply reachable_inv.
Qed.

Lemma render_cube_never_raises_witness :
  exists fills,
    FallbackGUI.render_cube
      (FallbackGUI.Mk (apply_moves [(0, 1); (4, -1)] CubeModel_init) [])
    = (Return (),
       FallbackGUI.Mk (apply_moves [(0, 1); (4, -1)] CubeModel_init) fills) /\
    length fills = 54%nat.
Proof.
  apply (render_cube_never_raises _ [] [(0, 1); (4, -1)]). reflexivity.
Defined.

(** X17.  [FallbackGUI.solve_cube] undoes the moves made since the cube was
    created: on a GUI whose cube came from the fresh one by valid moves, it
    raises nothing, the cube afterwards has the fresh cube's cubies,
    [is_solved] is [True] and the canvas is that of a solved cube.  The
    history is not cleared: it then holds the moves followed by their
    inverses. *)
Theorem fallback_solve_cube (moves : list (Z * Z)) (canvas : list string) :
  Forall valid_move moves ->
  let gui := FallbackGUI.Mk (apply_moves moves CubeModel_init) canvas in
  exists m,
    FallbackGUI.solve_cube gui = (Return (), FallbackGUI.Mk m solved_canvas) /\
    cubies m = cubies CubeModel_init /\
    is_solved m = true /\
    history m = moves ++ (negate_move <$> reverse moves).
Proof.
  intros Hvalid gui.
  destruct (apply_moves_valid moves CubeModel_init Hvalid eq_refl CubeModel_init_ok)
    as (_ & _ & Hh). simpl in Hh.
  set (scrambled := apply_moves moves CubeModel_init) in *.
  assert (Forall valid_move (negate_move <$> reverse moves)) as Hvalid'.
  { apply Forall_fmap, Forall_reverse.
    eapply Forall_impl; [exact Hvalid|]. apply negate_move_valid. }
  assert (animating scrambled = false) as Ha.
  { unfold scrambled. by rewrite apply_moves_animating. }
  set (m := apply_moves (negate_move <$> reverse moves) scrambled).
  assert (cubies m = cubies CubeModel_init) as Hm.
  { unfold m, scrambled. by apply undo_moves. }
  exists m. unfold FallbackGUI.solve_cube. cbn [FallbackGUI.cube_model gui].
  rewrite get_solution_reversed, Hh, play_valid by done. fold m.
  cbn [FallbackGUI.canvas gui].
  destruct (render_cube_returns m canvas) as (fills & Hr & _).
  { rewrite Hm. apply CubeModel_init_inv. }
  destruct (render_cube_cubies m CubeModel_init canvas [] Hm) as [Hcanvas _].
  rewrite Hr in Hcanvas |- *. cbn [snd FallbackGUI.canvas] in Hcanvas.
  split; [by rewrite Hcanvas|]. split; [done|]. split.
  - rewrite (is_solved_cubies m CubeModel_init) by done. by vm_compute.
  - unfold m.
    destruct (apply_moves_valid _ scrambled Hvalid' Ha) as (_ & _ & ->).
    + unfold scrambled. apply apply_moves_ok, CubeModel_init_ok.
    + by rewrite Hh.
Qed.

Lemma fallback_solve_cube_witness :
  let gui := FallbackGUI.Mk (apply_moves [(2, 1); (0, -1)] CubeModel_init) [] in
  exists m,
    FallbackGUI.solve_cube gui = (Return (), FallbackGUI.Mk m solved_canvas) /\
    cubies m = cubies CubeModel_init /\
    is_solved m = true /\
    history m = [(2, 1); (0, -1)] ++ (negate_move <$> reverse [(2, 1); (0, -1)]).
Proof.
  apply (fallback_solve_cube [(2, 1); (0, -1)] []).
  repeat constructor; simpl; lia.
Defined.

(** X18.  A face button of the fallback GUI always works: on a GUI whose
    cube came from the fresh one by [rotate_face] calls, [rotate_face] with
    a face 0..5 raises nothing, leaves the cube that [CubeModel.rotate_face]
    leaves, with the move recorded, and redraws all 54 rectangles. *)
Theorem fallback_rotate_face (moves : list (Z * Z)) (canvas : list string)
    (face direction : Z) :
  0 <= face <= 5 ->
  let gui := FallbackGUI.Mk (apply_moves moves CubeModel_init) canvas in
  exists fills,
    FallbackGUI.rotate_face face direction gui
    = (Return (),
       FallbackGUI.Mk (apply_moves (moves ++ [(face, direction)]) CubeModel_init)
                      fills) /\
    length fills = 54%nat.
Proof.
  intros Hface gui.
  destruct (FACE_AXES_valid face Hface) as (axis & sign & Hf & _).
  set (m := apply_moves moves CubeModel_init) in *.
  assert (animating m = false) as Ha.
  { unfold m. by rewrite apply_moves_animating. }
  unfold FallbackGUI.rotate_face. cbn [FallbackGUI.cube_model gui]. rewrite Ha.
  cbn [negb]. rewrite apply_moves_app. fold m.
  change (apply_moves [(face, direction)] m)
    with (rotate_face face direction m).2.
  rewrite (rotate_face_turns m _ _ axis sign) by done. cbn [snd].
  apply render_cube_returns. simpl.
  apply (turned_inv face); [done|]. apply apply_moves_inv, CubeModel_init_inv.
Qed.

Lemma fallback_rotate_face_witness :
  let gui := FallbackGUI.Mk (apply_moves [(1, 1)] CubeModel_init) [] in
  exists fills,
    FallbackGUI.rotate_face 3 (-1) gui
    = (Return (),
       FallbackGUI.Mk (apply_moves ([(1, 1)] ++ [(3, -1)]) CubeModel_init) fills) /\
    length fills = 54%nat.
Proof.
  apply (fallback_rotate_face [(1, 1)] [] 3 (-1)). lia.
Defined.

(** ** The controller *)

(** X19.  [AppController.rotate_face] rejects an invalid face before it
    touches the model: for a face outside 0..5 the controller, its cube and
    the history included, is left exactly as it was, and unless an
    animation is in progress the call raises the [KeyError] of the
    controller's own [FACE_AXES] lookup. *)
Theorem controller_rejects_invalid_face (self : AppController.t)
    (face_idx direction : Z) :
  ~ (0 <= face_idx <= 5) ->
  (AppController.rotate_face face_idx direction self).2 = self /\
  (AppController.is_animating self = false ->
   (AppController.rotate_face face_idx direction self).1 = Raise KeyError).
Proof.
  intros Hface. unfold AppController.rotate_face.
  rewrite (FACE_AXES_invalid face_idx Hface).
  destruct (AppController.is_animating self); by split.
Qed.

Lemma controller_rejects_invalid_face_witness :
  (AppController.rotate_face 6 1 (AppController.init false)).2
  = AppController.init false /\
  (AppController.is_animating (AppController.init false) = false ->
   (AppController.rotate_face 6 1 (AppController.init false)).1 = Raise KeyError).
Proof.
  apply (controller_rejects_invalid_face (AppController.init false) 6 1). lia.
Defined.

(** X20.  Through the controller a valid move is the model's move: with no
    animation in progress and a face 0..5, [AppController.rotate_face]
    raises nothing and leaves the cube [CubeModel.rotate_face] leaves. *)
Theorem controller_rotate_face (self : AppController.t) (face_idx direction : Z) :
  AppController.is_animating self = false ->
  0 <= face_idx <= 5 ->
  AppController.rotate_face face_idx direction self
  = (Return (),
     AppController.Mk (AppController.use_fallback self)
       (rotate_face face_idx direction (AppController.cube_model self)).2).
Proof.
  intros Ha Hface. unfold AppController.rotate_face. rewrite Ha.
  destruct (FACE_AXES_valid face_idx Hface) as (axis & sign & Hf & _).
  rewrite Hf. unfold AppController.is_animating in Ha.
  by rewrite (rotate_face_turns _ _ _ axis sign).
Qed.

Lemma controller_rotate_face_witness :
  AppController.rotate_face 0 1 (AppController.init true)
  = (Return (),
     AppController.Mk (AppController.use_fallback (AppController.init true))
       (rotate_face 0 1 (AppController.cube_model (AppController.init true))).2).
Proof.
  apply (controller_rotate_face (AppController.init true) 0 1);
    [reflexivity | lia].
Defined.

(** ** The animated GUI *)

Lemma set_animating_back (m : CubeModel) :
  animating m = false -> set_animating (set_animating m true) false = m.
Proof. destruct m. simpl. by intros ->. Qed.

Lemma idle_ticks (ticks : list bool) (m : CubeModel) :
  foldl (fun r tick => RubiksCubeGUI._animation_loop tick r)
        (CubeRenderer.Mk m None) ticks
  = CubeRenderer.Mk m None.
Proof. induction ticks as [|tick ticks IH]; [done|]. by cbn. Qed.

(** X21.  A move started with [start_animation] reaches the model exactly
    once.  From a renderer whose cube is not animating, after
    [start_animation(face, direction)] and any number of passes of the
    animation loop, the cube is still the old one with animating set, the
    move pending, as long as no pass found the animation finished; from the
    first pass that does, the cube is the one a single
    [rotate_face(face, direction)] on the old cube leaves, with nothing
    pending, and later passes change nothing. *)
Theorem animation_applies_once (self : CubeRenderer.t) (face direction : Z)
    (ticks : list bool) :
  animating (CubeRenderer.cube_model self) = false ->
  let started := (CubeRenderer.start_animation face direction self).2 in
  let final :=
    foldl (fun r tick => RubiksCubeGUI._animation_loop tick r) started ticks in
  (CubeRenderer.start_animation face direction self).1 = true /\
  final =
    if existsb id ticks then
      CubeRenderer.Mk
        (rotate_face face direction (CubeRenderer.cube_model self)).2 None
    else
      CubeRenderer.Mk (set_animating (CubeRenderer.cube_model self) true)
                      (Some (face, direction)).
Proof.
  intros Ha. unfold CubeRenderer.start_animation. rewrite Ha. cbn [negb fst snd].
  split; [done|].
  induction ticks as [|tick ticks IH]; [done|].
  cbn [foldl existsb].
  destruct tick; cbn [id orb].
  - unfold RubiksCubeGUI._animation_loop at 2, CubeRenderer.update_animation.
    cbn [CubeRenderer.current_animation CubeRenderer.cube_model set_animating
         animating negb].
    rewrite (set_animating_back _ Ha).
    destruct (rotate_face face direction (CubeRenderer.cube_model self))
      as [[r|e] m]; cbn [snd]; apply idle_ticks.
  - exact IH.
Qed.

Lemma animation_applies_once_witness :
  let self := CubeRenderer.init CubeModel_init in
  let started := (CubeRenderer.start_animation 0 1 self).2 in
  let final :=
    foldl (fun r tick => RubiksCubeGUI._animation_loop tick r) started
          [false; false; true; false; true] in
  (CubeRenderer.start_animation 0 1 self).1 = true /\
  final =
    if existsb id [false; false; true; false; true] then
      CubeRenderer.Mk (rotate_face 0 1 (CubeRenderer.cube_model self)).2 None
    else
      CubeRenderer.Mk (set_animating (CubeRenderer.cube_model self) true)
                      (Some (0, 1)).
Proof.
  apply (animation_applies_once (CubeRenderer.init CubeModel_init) 0 1
           [false; false; true; false; true]).
  reflexivity.
Defined.

Lemma rotate_face_cubies_congr (m m' : CubeModel) (face direction : Z) :
  cubies m = cubies m' -> animating m = animating m' ->
  cubies (rotate_face face direction m).2 = cubies (rotate_face face direction m').2.
Proof.
  intros Hc Ha. unfold rotate_face. rewrite <- Ha.
  destruct (animating m); [done|]. cbn [set_history cubies]. rewrite <- Hc.
  by destruct (obind _ _).
Qed.

Lemma apply_moves_cubies_congr (moves : list (Z * Z)) (m m' : CubeModel) :
  cubies m = cubies m' -> animating m = animating m' ->
  cubies (apply_moves moves m) = cubies (apply_moves moves m').
Proof.
  revert m m'. induction moves as [|[f d] moves IH]; intros m m' Hc Ha; [done|].
  rewrite !apply_moves_cons. apply IH.
  - by apply rotate_face_cubies_congr.
  - by rewrite !rotate_face_animating.
Qed.

(** X22.  Whatever the user does in the animated GUI (face buttons with any
    arguments, reset, randomize, passes of the animation loop with any
    timing), the animating flag is set exactly while a move is pending, and
    the cubies are always those of some sequence of [rotate_face] calls on
    a fresh cube. *)
Theorem gui_session (events : list gui_event) :
  let self := foldl handle RubiksCubeGUI.init events in
  (animating (CubeRenderer.cube_model self) = true
   <-> is_Some (CubeRenderer.current_animation self)) /\
  exists moves,
    cubies (CubeRenderer.cube_model self)
    = cubies (apply_moves moves CubeModel_init).
Proof.
  induction events as [|e events IH] using rev_ind.
  { unfold RubiksCubeGUI.init, CubeRenderer.init.
    cbn [foldl CubeRenderer.cube_model CubeRenderer.current_animation].
    split; [|by exists []]. split; [done|by intros [? ?]]. }
  rewrite foldl_snoc.
  destruct (foldl handle RubiksCubeGUI.init events) as [m cur].
  cbn [CubeRenderer.cube_model CubeRenderer.current_animation] in *.
  destruct IH as [Hflag (moves & Hmoves)].
  destruct e as [face direction| |g|finished]; cbn [handle].
  - unfold RubiksCubeGUI._rotate_face, CubeRenderer.start_animation.
    cbn [CubeRenderer.cube_model].
    destruct (animating m) eqn:Ha; cbn [negb fst snd CubeRenderer.cube_model
      CubeRenderer.current_animation set_animating animating cubies].
    + split; [by rewrite Ha|by exists moves].
    + split; [by split|by exists moves].
  - unfold RubiksCubeGUI._reset_cube. cbn [CubeRenderer.cube_model].
    destruct (animating m) eqn:Ha; cbn [negb CubeRenderer.cube_model
      CubeRenderer.current_animation].
    + split; [by rewrite Ha|by exists moves].
    + split; [|by exists []]. cbn [animating CubeModel_init].
      rewrite <- Hflag. done.
  - unfold RubiksCubeGUI._randomize_cube. cbn [CubeRenderer.cube_model].
    destruct (animating m) eqn:Ha; cbn [negb snd CubeRenderer.cube_model
      CubeRenderer.current_animation].
    + split; [by rewrite Ha|by exists moves].
    + unfold randomize. rewrite Ha, randomize_loop_moves by done.
      cbn [snd CubeRenderer.cube_model CubeRenderer.current_animation].
      split.
      * rewrite apply_moves_animating, Ha. done.
      * exists (moves ++ drawn_moves (Z.to_nat 20) g).
        rewrite apply_moves_app. apply apply_moves_cubies_congr; [done|].
        by rewrite apply_moves_animating.
  - unfold RubiksCubeGUI._animation_loop, CubeRenderer.update_animation.
    cbn [CubeRenderer.cube_model CubeRenderer.current_animation].
    destruct cur as [[face direction]|]; [|by split; [|exists moves]].
    destruct (animating m) eqn:Ha; cbn [negb];
      cbn [snd CubeRenderer.cube_model CubeRenderer.current_animation].
    2:{ split; [by rewrite Ha|by exists moves]. }
    destruct finished;
      cbn [snd CubeRenderer.cube_model CubeRenderer.current_animation].
    2:{ split; [by rewrite Ha|by exists moves]. }
    pose proof (rotate_face_animating (set_animating m false) face direction)
      as Hanim.
    pose proof (rotate_face_cubies_congr (set_animating m false)
                  (apply_moves moves CubeModel_init) face direction Hmoves) as Hc.
    rewrite apply_moves_animating in Hc. specialize (Hc eq_refl).
    destruct (rotate_face face direction (set_animating m false)) as [[r|e] m'];
      cbn [snd CubeRenderer.cube_model CubeRenderer.current_animation] in *;
      (split; [rewrite Hanim; split; [done|by intros [? ?]]|]);
      exists (moves ++ [(face, direction)]); by rewrite apply_moves_app.
Qed.

(** ** A session of the fallback GUI *)

Lemma fallback_render_ok (moves : list (Z * Z)) (canvas : list string) :
  Forall valid_move moves ->
  exists self,
    FallbackGUI.render_cube (FallbackGUI.Mk (apply_moves moves CubeModel_init) canvas)
    = (Return (), self) /\ fallback_ok self.
Proof.
  intros Hvalid.
  destruct (render_cube_returns (apply_moves moves CubeModel_init) canvas)
    as (fills & Hr & Hlen).
  { apply apply_moves_inv, CubeModel_init_inv. }
  eexists. split; [exact Hr|]. split; [done|]. by exists moves.
Qed.

Lemma fallback_handle_ok (e : fallback_event) (self : FallbackGUI.t) :
  button_ok e -> fallback_ok self ->
  exists self', fallback_handle e self = (Return (), self') /\ fallback_ok self'.
Proof.
  intros He [_ (moves & Hvalid & Hm)].
  destruct self as [m canvas]. cbn [FallbackGUI.cube_model] in Hm. subst m.
  set (m := apply_moves moves CubeModel_init).
  assert (animating m = false) as Ha.
  { unfold m. by rewrite apply_moves_animating. }
  destruct e as [face direction| |g| |]; cbn [fallback_handle].
  - unfold FallbackGUI.rotate_face. cbn [FallbackGUI.cube_model FallbackGUI.canvas].
    rewrite Ha. cbn [negb].
    pose proof (rotate_face_valid_returns m (face, direction) Ha He) as Hret.
    cbn [fst snd] in Hret.
    assert ((rotate_face face direction m).2
            = apply_moves (moves ++ [(face, direction)]) CubeModel_init) as Hm'.
    { by rewrite apply_moves_app. }
    destruct (rotate_face face direction m) as [r m']. cbn [fst snd] in *. subst.
    apply fallback_render_ok. apply Forall_app. split; [done|]. by constructor.
  - unfold FallbackGUI.reset_cube. apply (fallback_render_ok []). constructor.
  - unfold FallbackGUI.randomize_cube. cbn [FallbackGUI.cube_model FallbackGUI.canvas].
    unfold randomize. rewrite Ha, randomize_loop_moves by done.
    unfold m. rewrite <- apply_moves_app.
    destruct (fallback_render_ok (moves ++ drawn_moves (Z.to_nat 20) g) canvas)
      as (self' & -> & Hok).
    { apply Forall_app. split; [done|apply drawn_moves_valid]. }
    by exists self'.
  - unfold FallbackGUI.solve_cube. cbn [FallbackGUI.cube_model FallbackGUI.canvas].
    rewrite get_solution_reversed.
    destruct (apply_moves_valid moves CubeModel_init Hvalid eq_refl CubeModel_init_ok)
      as (_ & _ & Hh). simpl in Hh. fold m in Hh. rewrite Hh.
    assert (Forall valid_move (negate_move <$> reverse moves)) as Hvalid'.
    { apply Forall_fmap, Forall_reverse.
      eapply Forall_impl; [exact Hvalid|]. apply negate_move_valid. }
    rewrite play_valid by done. unfold m. rewrite <- apply_moves_app.
    apply fallback_render_ok. apply Forall_app. by split.
  - by apply fallback_render_ok.
Qed.

Lemma fallback_init_ok : fallback_ok fallback_init.
Proof.
  unfold fallback_init.
  destruct (fallback_render_ok [] []) as (self & Hr & Hok); [constructor|].
  change (apply_moves [] CubeModel_init) with CubeModel_init in Hr.
  by rewrite Hr.
Qed.

(** X23.  The fallback GUI never fails: from the GUI as created, through any
    sequence of face buttons, resets, randomizes, solves and resizes, no
    callback raises; the cube is always the fresh cube after some sequence of valid
    moves, and the canvas always shows all 54 rectangles. *)
Theorem fallback_session (events : list fallback_event) :
  Forall button_ok events ->
  (fallback_run events fallback_init).1 = Return () /\
  length (FallbackGUI.canvas (fallback_run events fallback_init).2) = 54%nat /\
  exists moves,
    Forall valid_move moves /\
    FallbackGUI.cube_model (fallback_run events fallback_init).2
    = apply_moves moves CubeModel_init.
Proof.
  intros Hev.
  assert (exists self, fallback_run events fallback_init = (Return (), self) /\
                       fallback_ok self) as (self & -> & Hlen & Hmoves).
  { induction events as [|e events IH] using rev_ind.
    - exists fallback_init. split; [done|apply fallback_init_ok].
    - apply Forall_app in Hev as [Hev He]. apply Forall_inv in He.
      destruct (IH Hev) as (self & Hrun & Hok).
      unfold fallback_run in *. rewrite foldl_snoc, Hrun.
      exact (fallback_handle_ok e self He Hok). }
  done.
Qed.

Lemma fallback_session_witness :
  let events := [FaceButton 0 1; RandomizeButton (MkRng (fun n => n) 0);
                 SolveButton; Resize; ResetButton; FaceButton 5 (-1)] in
  (fallback_run events fallback_init).1 = Return () /\
  length (FallbackGUI.canvas (fallback_run events fallback_init).2) = 54%nat /\
  exists moves,
    Forall valid_move moves /\
    FallbackGUI.cube_model (fallback_run events fallback_init).2
    = apply_moves moves CubeModel_init.
Proof.
  intros events. apply (fallback_session events).
  repeat constructor; simpl; lia.
Defined.
